(** * acegen-open: SMILES vocabulary codec and reward transforms

    A shallow embedding of

    - [acegen/vocabulary/vocabulary.py]  (class [SMILESVocabulary]),
    - [acegen/transforms/reward_transform.py]  (class [SMILESReward]),
    - [examples/ppo/utils.py]  (class [SMILESReward], the variant with
      bounded retries and a reward scale),

    together with the properties that the design document states about
    them.  Python exceptions are values of [exn]; Python dictionaries are
    insertion-ordered association lists; tensors of per-step values are
    grids (lists of rows) of step records. *)

From Stdlib Require Import ZArith String Ascii List Lia.
From stdpp Require Import base tactics option list strings gmap sorting.

Local Open Scope string_scope.
Local Open Scope list_scope.
Local Open Scope Z_scope.

(** ** Python exceptions and fallible results *)

(** The exceptions the modelled code raises itself ([RuntimeError],
    [KeyError]), and what an injected callable may raise besides: an
    instance of a class derived from [RuntimeError]
    ([NotImplementedError], [RecursionError], the out-of-memory error of
    torch, ...), or an instance of any class that is not derived from
    [RuntimeError] ([OtherError]). *)
Inductive exn : Type :=
  | RuntimeError
  | RuntimeErrorSubclass (name : string)
  | KeyError
  | OtherError (name : string).

(** [isinstance(e, RuntimeError)], which is what [except RuntimeError]
    tests. *)
Definition isinstance_RuntimeError (e : exn) : bool :=
  match e with
  | RuntimeError | RuntimeErrorSubclass _ => true
  | KeyError | OtherError _ => false
  end.

Inductive result (A : Type) : Type :=
  | Ok (a : A)
  | Raise (e : exn).
Arguments Ok {A} a.
Arguments Raise {A} e.

Global Instance exn_eq_dec : EqDecision exn.
Proof. solve_decision. Defined.
Global Instance result_eq_dec {A} `{EqDecision A} : EqDecision (result A).
Proof. solve_decision. Defined.

(** The value of a cell of a [numpy.float32] array that was assigned an
    integer, and more generally of an index handed to [decode]: an integer,
    or an infinity. *)
Inductive number : Type :=
  | Int (z : Z)
  | Inf (negative : bool).
Coercion Int : Z >-> number.

Global Instance number_eq_dec : EqDecision number.
Proof. solve_decision. Defined.

Global Instance result_ret : MRet result := @Ok.
Global Instance result_bind : MBind result := λ A B k r,
  match r with
  | Ok a => k a
  | Raise e => Raise e
  end.

(** [for x in xs: ys.append(f(x))] where [f] may raise. *)
Fixpoint result_mapM {A B} (f : A → result B) (xs : list A) : result (list B) :=
  match xs with
  | [] => Ok []
  | x :: xs' =>
      match f x with
      | Raise e => Raise e
      | Ok y =>
          match result_mapM f xs' with
          | Raise e => Raise e
          | Ok ys => Ok (y :: ys)
          end
      end
  end.

(** ** Python built-ins used by the code *)

Module Py.

(** *** [dict]: insertion-ordered, unique keys *)
Section dict.
Context {K V : Type} `{EqDecision K}.

(** [d[k]]; [None] stands for the [KeyError]. *)
Fixpoint dict_get (d : list (K * V)) (k : K) : option V :=
  match d with
  | [] => None
  | (k', v) :: d' => if decide (k' = k) then Some v else dict_get d' k
  end.

(** [d[k] = v]: an existing key keeps its position, a new key is
    appended. *)
Fixpoint dict_set (d : list (K * V)) (k : K) (v : V) : list (K * V) :=
  match d with
  | [] => [(k, v)]
  | (k', v') :: d' =>
      if decide (k' = k) then (k', v) :: d' else (k', v') :: dict_set d' k v
  end.

(** [dict(items)] and dictionary comprehensions: items are inserted
    left to right, so a later item overrides an earlier one with the
    same key. *)
Definition dict_of_items (items : list (K * V)) : list (K * V) :=
  foldl (λ d kv, dict_set d kv.1 kv.2) [] items.

Definition dict_keys (d : list (K * V)) : list K := d.*1.
End dict.

(** [{v: k for k, v in d.items()}] *)
Definition dict_reversed {K V} `{EqDecision V} (d : list (K * V)) : list (V * K) :=
  dict_of_items ((λ kv, (kv.2, kv.1)) <$> d).

(** [range(n)] *)
Definition range (n : nat) : list Z := seqZ 0 (Z.of_nat n).

(** *** [str] *)

(** [sep.join(parts)] with the empty separator. *)
Definition join (parts : list string) : string := String.concat "" parts.

(** [s.replace(old, new)]: non-overlapping occurrences of [old], found
    left to right, are replaced.  [skip] counts the characters of an
    occurrence that are still to be dropped. *)
Fixpoint replace_from (old new : string) (skip : nat) (s : string) : string :=
  match s with
  | EmptyString => EmptyString
  | String c s' =>
      match skip with
      | S k => replace_from old new k s'
      | O =>
          if String.prefix old s
          then new +:+ replace_from old new (Nat.pred (String.length old)) s'
          else String c (replace_from old new O s')
      end
  end.

Fixpoint intersperse_after (new : string) (s : string) : string :=
  match s with
  | EmptyString => EmptyString
  | String c s' => String c (new +:+ intersperse_after new s')
  end.

Definition replace (s old new : string) : string :=
  match old with
  | EmptyString => new +:+ intersperse_after new s
  | _ => replace_from old new O s
  end.

(** Rounding of an integer to [p] significant bits, ties to even. *)
Definition round_to (p : Z) (z : Z) : Z :=
  let a := Z.abs z in
  let e := Z.log2 a in
  if e <? p then z
  else
    let sh := e - (p - 1) in
    let q := Z.shiftr a sh in
    let r := a - Z.shiftl q sh in
    let half := Z.shiftl 1 (sh - 1) in
    let q' := if (half <? r) || ((half =? r) && Z.odd q) then q + 1 else q in
    Z.sgn z * Z.shiftl q' sh.

(** [float(z)], the conversion of a Python integer to a C double: 53
    significant bits; an [OverflowError] when the result does not fit. *)
Definition float64_of_Z (z : Z) : result Z :=
  let r := round_to 53 z in
  if Z.abs r <? 2 ^ 1024 then Ok r else Raise (OtherError "OverflowError").

(** The cast of a C double (holding an integer) to [float32]: 24
    significant bits; an infinity from [2^128] on. *)
Definition float32_of_float64 (r : Z) : number :=
  let x := round_to 24 r in
  if Z.abs x <? 2 ^ 128 then Int x else Inf (r <? 0).

(** Assignment of a Python integer into a [numpy.float32] cell: the
    integer is converted to a C double, which is cast to [float32]. *)
Definition float32_of_Z (z : Z) : result number :=
  match float64_of_Z z with
  | Raise e => Raise e
  | Ok r => Ok (float32_of_float64 r)
  end.

(** [d[x]] for a dictionary with integer keys and a number [x]; no key
    equals an infinity. *)
Definition dict_get_number {V} (d : list (Z * V)) (x : number) : option V :=
  match x with
  | Int z => dict_get d z
  | Inf _ => None
  end.

End Py.

(** ** The tokenizer interface

    [acegen.vocabulary.base.Tokenizer]: "any class that implements the
    tokenize and untokenize methods can be used". *)
Record Tokenizer : Type := {
  tokenize : string → list string;
  untokenize : list string → string;
}.

(** ** [SMILESVocabulary] *)

Module SMILESVocabulary.

Record t : Type := {
  start_token : string;
  end_token : string;
  special_tokens : list string;
  additional_chars : gset string;
  chars : list string;
  vocab_size : nat;
  vocab : list (string * Z);
  reversed_vocab : list (Z * string);
  max_length : Z;
  tokenizer : option Tokenizer;
}.

Definition __init__ (start_token : string) (start_token_index : Z)
    (end_token : string) (end_token_index : Z) (max_length : Z)
    (tokenizer : option Tokenizer) : t :=
  let special_tokens := [end_token; start_token] in
  let special_indices := [end_token_index; start_token_index] in
  let chars := special_tokens in
  let vocab := Py.dict_of_items (zip chars special_indices) in
  {| start_token := start_token;
     end_token := end_token;
     special_tokens := special_tokens;
     additional_chars := ∅;
     chars := chars;
     vocab_size := length chars;
     vocab := vocab;
     reversed_vocab := Py.dict_reversed vocab;
     max_length := max_length;
     tokenizer := tokenizer |}.

(** The call [cls()] with every argument left at its default. *)
Definition default : t := __init__ "GO" 0 "EOS" 1 140 None.

(** The body of [for i, char in enumerate(char_list)] in [encode]. *)
Fixpoint encode_loop (vocab : list (string * Z)) (i : nat)
    (char_list : list string) (smiles_matrix : list number)
    : result (list number) :=
  match char_list with
  | [] => Ok smiles_matrix
  | char :: rest =>
      match Py.dict_get vocab char with
      | None => Raise KeyError
      | Some z =>
          match Py.float32_of_Z z with
          | Raise e => Raise e
          | Ok x => encode_loop vocab (S i) rest (<[i := x]> smiles_matrix)
          end
      end
  end.

Definition encode (self : t) (smiles : string) : result (list number) :=
  match tokenizer self with
  | None => Raise RuntimeError
  | Some tok =>
      let char_list := tokenize tok smiles in
      let smiles_matrix := replicate (length char_list) (Int 0) in
      encode_loop (vocab self) 0 char_list smiles_matrix
  end.

(** The loop of [decode]; [chars] is the list being appended to. *)
Fixpoint decode_loop (self : t) (ignore_indices : list number)
    (encoded_smiles : list number) (chars : list string)
    : result (list string) :=
  match encoded_smiles with
  | [] => Ok chars
  | i :: rest =>
      if decide (i ∈ ignore_indices) then decode_loop self ignore_indices rest chars
      else
        match Py.dict_get (vocab self) (start_token self) with
        | None => Raise KeyError
        | Some s =>
            if decide (i = Int s) then decode_loop self ignore_indices rest chars
            else
              match Py.dict_get (vocab self) (end_token self) with
              | None => Raise KeyError
              | Some e =>
                  if decide (i = Int e) then Ok chars
                  else
                    match Py.dict_get_number (reversed_vocab self) i with
                    | None => Raise KeyError
                    | Some c => decode_loop self ignore_indices rest (chars ++ [c])
                    end
              end
        end
  end.

(** [smiles.replace("L", "Cl").replace("R", "Br")] *)
Definition canonical (smiles : string) : string :=
  Py.replace (Py.replace smiles "L" "Cl") "R" "Br".

Definition decode (self : t) (encoded_smiles : list number)
    (ignore_indices : list number) : result string :=
  match decode_loop self ignore_indices encoded_smiles [] with
  | Raise e => Raise e
  | Ok chars => Ok (canonical (Py.join chars))
  end.

Definition add_characters (self : t) (new_chars : list string) : t :=
  let additional :=
    foldl (λ acc char, if decide (char ∈ chars self) then acc else {[char]} ∪ acc)
          (additional_chars self) new_chars in
  let char_list := merge_sort String.le (elements additional) in
  let chars' := char_list ++ special_tokens self in
  let vocab' := Py.dict_of_items (zip chars' (Py.range (length chars'))) in
  {| start_token := start_token self;
     end_token := end_token self;
     special_tokens := special_tokens self;
     additional_chars := additional;
     chars := chars';
     vocab_size := length chars';
     vocab := vocab';
     reversed_vocab := Py.dict_reversed vocab';
     max_length := max_length self;
     tokenizer := tokenizer self |}.

Definition len (self : t) : nat := length (chars self).

Definition create_from_smiles (smiles_list : list string) (tokenizer : Tokenizer)
    (start_token : string) (start_token_index : Z)
    (end_token : string) (end_token_index : Z) (max_length : Z) : t :=
  let vocabulary :=
    __init__ start_token start_token_index end_token end_token_index
             max_length (Some tokenizer) in
  let tokens : gset string :=
    foldl (λ acc smi,
             match SMILESVocabulary.tokenizer vocabulary with
             | Some tok => acc ∪ list_to_set (tokenize tok smi)
             | None => acc
             end) ∅ smiles_list in
  let vocabulary := default in
  add_characters vocabulary (merge_sort String.le (elements tokens)).

Definition create_from_dict (vocab : list (string * Z))
    (start_token end_token : string) (max_length : Z)
    (tokenizer : option Tokenizer) : t :=
  let vocabulary := __init__ start_token 0 end_token 1 max_length tokenizer in
  let chars := Py.dict_keys vocab in
  let special_tokens := [end_token; start_token] in
  {| start_token := SMILESVocabulary.start_token vocabulary;
     end_token := SMILESVocabulary.end_token vocabulary;
     special_tokens := special_tokens;
     additional_chars :=
       list_to_set (filter (λ char, char ∉ special_tokens) chars);
     chars := chars;
     vocab_size := length vocab;
     vocab := vocab;
     reversed_vocab := Py.dict_reversed vocab;
     max_length := SMILESVocabulary.max_length vocabulary;
     tokenizer := SMILESVocabulary.tokenizer vocabulary |}.

(** [decode] applied to an array of integers, as the reward transforms
    do with [smi.cpu().numpy()] and [ignore_indices=[-1]]. *)
Definition decode_ints (self : t) (encoded_smiles ignore_indices : list Z)
    : result string :=
  decode self (Int <$> encoded_smiles) (Int <$> ignore_indices).

End SMILESVocabulary.

(** A tokenizer that splits a text into its characters. *)
Fixpoint characters (s : string) : list string :=
  match s with
  | EmptyString => []
  | String c s' => String c EmptyString :: characters s'
  end.

Definition char_tokenizer : Tokenizer :=
  {| tokenize := characters; untokenize := Py.join |}.


(** ** Tensors and tensor dictionaries

    A tensor with batch shape [[B, T]] is a grid: a list of [B] rows of [T]
    cells.  A trailing dimension of size one (the [done], [terminated] and
    reward entries have shape [[B, T, 1]]) is dropped, which is what
    [squeeze(-1)] and [reshape(reward.shape)] do in the code; a cell of the
    sequence entry is the row of token indices of that step. *)

Abbreviation grid A := (list (list A)) (only parsing).

Module Tensor.
Section tensor.
Context {A : Type}.

(** [row[mask_row]] *)
Fixpoint select_row (mask : list bool) (row : list A) : list A :=
  match mask, row with
  | b :: mask', x :: row' =>
      if b then x :: select_row mask' row' else select_row mask' row'
  | _, _ => []
  end.

(** [tensor[mask]]: the selected cells in row-major order. *)
Fixpoint masked_select (mask : grid bool) (g : grid A) : list A :=
  match mask, g with
  | m :: mask', row :: g' => select_row m row ++ masked_select mask' g'
  | _, _ => []
  end.

(** One row of [tensor[mask] = values]; returns the updated row and the
    values left for the following rows. *)
Fixpoint assign_row (mask : list bool) (row : list A) (values : list A)
    : list A * list A :=
  match mask, row with
  | b :: mask', x :: row' =>
      if b then
        match values with
        | v :: values' =>
            let '(r, rest) := assign_row mask' row' values' in (v :: r, rest)
        | [] => (row, [])
        end
      else
        let '(r, rest) := assign_row mask' row' values in (x :: r, rest)
  | _, _ => (row, values)
  end.

(** [tensor[mask] = values] *)
Fixpoint masked_assign (mask : grid bool) (g : grid A) (values : list A)
    : grid A :=
  match mask, g with
  | m :: mask', row :: g' =>
      let '(r, rest) := assign_row m row values in
      r :: masked_assign mask' g' rest
  | _, _ => g
  end.

Definition shape (g : grid A) : list nat := length <$> g.
End tensor.

(** [mask.sum()]: the number of selected cells. *)
Definition count_true (mask : grid bool) : nat :=
  length (filter (λ b, b = true) (mjoin mask)).
End Tensor.

Section TensorDict.
Context {R : Type}.

(** The entries of a tensor dictionary, grouped by the type of their
    cells: flags ([done], [terminated]), token sequences (the
    [SMILES] entry) and numbers (the reward entries). *)
Record TensorDict : Type := {
  bools : gmap string (grid bool);
  ints : gmap string (grid (list Z));
  floats : gmap string (grid R);
}.

(** [tensordict.get(key)]; a missing key is a [KeyError]. *)
Definition get {A} (entries : gmap string (grid A)) (key : string)
    : result (grid A) :=
  match entries !! key with
  | Some g => Ok g
  | None => Raise KeyError
  end.

(** [tensordict.get_sub_tensordict(idx)]: a view of the source through a
    boolean mask. *)
Record SubTensorDict : Type := {
  source : TensorDict;
  idx : grid bool;
}.

Definition get_sub_tensordict (td : TensorDict) (mask : grid bool)
    : SubTensorDict :=
  {| source := td; idx := mask |}.

(** [len(sub_tensordict)] *)
Definition sub_len (sub : SubTensorDict) : nat := Tensor.count_true (idx sub).

(** [sub_tensordict.get(key)], a copy of the selected cells. *)
Definition sub_get {A} (entries : TensorDict → gmap string (grid A))
    (sub : SubTensorDict) (key : string) : result (list A) :=
  g ← get (entries (source sub)) key;
  Ok (Tensor.masked_select (idx sub) g).

(** [sub_tensordict.set(key, value, inplace=True)] on a number entry:
    writes the values into the selected cells of the source and returns
    the source. *)
Definition sub_set_float (sub : SubTensorDict) (key : string)
    (value : list R) : result TensorDict :=
  g ← get (floats (source sub)) key;
  Ok {| bools := bools (source sub);
        ints := ints (source sub);
        floats := <[key := Tensor.masked_assign (idx sub) g value]>
                    (floats (source sub)) |}.

(** A batch as the collector hands it over: the entries of the current
    step and the nested [next] sub-record. *)
Record Batch : Type := {
  root : TensorDict;
  next : TensorDict;
}.
End TensorDict.
Arguments TensorDict R : clear implicits.
Arguments SubTensorDict R : clear implicits.
Arguments Batch R : clear implicits.

(** Every entry of a tensor dictionary has the batch shape of the
    dictionary. *)
Record TensorDict_shaped {R} (td : TensorDict R) (batch_size : list nat)
    : Prop := {
  shaped_bools : ∀ key g, bools td !! key = Some g → Tensor.shape g = batch_size;
  shaped_ints : ∀ key g, ints td !! key = Some g → Tensor.shape g = batch_size;
  shaped_floats : ∀ key g, floats td !! key = Some g → Tensor.shape g = batch_size;
}.

(** [~mask] *)
Definition negate (mask : grid bool) : grid bool :=
  (λ m : list bool, negb <$> m) <$> mask.

(** [keys[0]] *)
Definition first_key (keys : list string) : result string :=
  match keys with
  | k :: _ => Ok k
  | [] => Raise (OtherError "IndexError")
  end.

(** ** Effects of the reward transforms

    The scoring function is an external callable: it has a state of its
    own (type [St]), may raise, and may answer differently when called
    again.  A computation threads that state, may raise, and collects the
    warnings it emits. *)

(** [warnings.warn("RuntimeError in reward function. Trying again.
    Attempt {}/{}".format(attempt, max_attempts))] *)
Inductive warning : Type :=
  | TryAgain (attempt max_attempts : nat).

Section Effects.
Context {St : Type}.

Definition M (A : Type) : Type := St → result A * St * list warning.

Definition ret {A} (a : A) : M A := λ s, (Ok a, s, []).

Definition bind {A B} (m : M A) (k : A → M B) : M B := λ s,
  match m s with
  | (Ok a, s', w) => let '(r, s'', w') := k a s' in (r, s'', w ++ w')
  | (Raise e, s', w) => (Raise e, s', w)
  end.

Definition raise {A} (e : exn) : M A := λ s, (Raise e, s, []).

Definition lift {A} (r : result A) : M A := λ s, (r, s, []).

Definition warn (w : warning) : M unit := λ s, (Ok (), s, [w]).

(** [try: body  except RuntimeError: handler]: the handler runs for every
    exception that is an instance of [RuntimeError], subclasses included;
    it is given the exception, which a bare [raise] raises again. *)
Definition try_except_RuntimeError {A} (body : M A) (handler : exn → M A)
    : M A := λ s,
  match body s with
  | (Raise e, s', w) =>
      if isinstance_RuntimeError e then
        let '(r, s'', w') := handler e s' in (r, s'', w ++ w')
      else (Raise e, s', w)
  | other => other
  end.

(** A call of the scoring function. *)
Definition call {A B} (f : A → St → result B * St) (a : A) : M B := λ s,
  let '(r, s') := f a s in (r, s', []).
End Effects.
Arguments M St A : clear implicits.

Notation "x <- m ;; k" := (bind m (λ x, k))
  (at level 100, m at next level, right associativity).
Notation "m ;;; k" := (bind m (λ _, k))
  (at level 100, right associativity).

(** ** [SMILESReward] of [acegen/transforms/reward_transform.py] *)

Module RewardTransform.
Section SMILESReward.
Context {R St : Type} (radd : R → R → R).

Record SMILESReward : Type := {
  (** [vocabulary.decode(encoded, ignore_indices)] of the injected
      vocabulary *)
  vocabulary_decode : list Z → list Z → result string;
  reward_function : list string → St → result (list R) * St;
  in_keys : list string;
  out_keys : list string;
}.

Definition __init__ (reward_function : list string → St → result (list R) * St)
    (vocabulary_decode : list Z → list Z → result string)
    (in_keys out_keys : option (list string)) : SMILESReward :=
  let out_keys := default ["reward"] out_keys in
  let in_keys := default ["SMILES"] in_keys in
  {| vocabulary_decode := vocabulary_decode;
     reward_function := reward_function;
     in_keys := in_keys;
     out_keys := out_keys |}.

(** [reward[:, 0] += torch.tensor(scores)]: an in-place addition
    broadcasts a one-element right-hand side. *)
Definition add_broadcast (reward scores : list R) : result (list R) :=
  if decide (length scores = length reward) then Ok (zip_with radd reward scores)
  else
    match scores with
    | [x] => Ok ((λ r, radd r x) <$> reward)
    | _ => Raise RuntimeError
    end.

Definition forward (self : SMILESReward) (tensordict : Batch R)
    : M St (Batch R) :=
  let td_next := next tensordict in
  terminated <- lift (get (bools td_next) "terminated") ;;
  let sub_tensordict := get_sub_tensordict td_next terminated in
  if decide (sub_len sub_tensordict = 0%nat) then ret tensordict
  else
    reward <- lift (sub_get floats sub_tensordict "reward") ;;
    in_key <- lift (first_key (in_keys self)) ;;
    smiles <- lift (sub_get ints sub_tensordict in_key) ;;
    smiles_list <- lift (result_mapM (λ smi, vocabulary_decode self smi [-1]) smiles) ;;
    scores <- call (reward_function self) smiles_list ;;
    reward <- lift (add_broadcast reward scores) ;;
    td_next <- lift (sub_set_float sub_tensordict "reward" reward) ;;
    ret {| root := root tensordict; next := td_next |}.
End SMILESReward.
Arguments SMILESReward R St : clear implicits.
End RewardTransform.

(** ** [SMILESReward] of [examples/ppo/utils.py] *)

Module PPOUtils.
Section SMILESReward.
Context {R St : Type} (radd rmul : R → R → R).

Record SMILESReward : Type := {
  vocabulary_decode : list Z → list Z → result string;
  reward_function : list string → St → result (list R) * St;
  in_keys : list string;
  out_keys : list string;
  reward_scale : R;
}.

Definition __init__ (vocabulary_decode : list Z → list Z → result string)
    (reward_function : list string → St → result (list R) * St)
    (in_keys out_keys : option (list string)) (reward_scale : R)
    : SMILESReward :=
  let out_keys := default ["reward"] out_keys in
  let in_keys := default ["SMILES"] in_keys in
  {| vocabulary_decode := vocabulary_decode;
     reward_function := reward_function;
     in_keys := in_keys;
     out_keys := out_keys;
     reward_scale := reward_scale |}.

Definition max_attempts : nat := 3.

(** [reward += _reward.reshape(reward.shape)]: reshaping fails with a
    [RuntimeError] unless the number of elements is the same. *)
Definition add_reshaped (reward scores : list R) : result (list R) :=
  if decide (length scores = length reward) then Ok (zip_with radd reward scores)
  else Raise RuntimeError.

(** The body of the [try]: one call of the scoring function and the
    in-place addition of its answer. *)
Definition attempt (self : SMILESReward) (smiles_list : list string)
    (reward : list R) : M St (list R) :=
  scores <- call (reward_function self) smiles_list ;;
  lift (add_reshaped reward scores).

(** The loop [for i in range(max_attempts)] from iteration [i] on, with
    [remaining] iterations to go.  The result is the value of [reward]
    when the loop is left. *)
Fixpoint attempts (self : SMILESReward) (smiles_list : list string)
    (reward : list R) (i remaining : nat) : M St (list R) :=
  match remaining with
  | O => ret reward
  | S remaining' =>
      try_except_RuntimeError
        (attempt self smiles_list reward)
        (λ e,
           if decide (i = (max_attempts - 1)%nat) then raise e
           else
             (warn (TryAgain (i + 1) max_attempts) ;;;
              attempts self smiles_list reward (S i) remaining'))
  end.

Definition _call (self : SMILESReward) (tensordict : TensorDict R)
    : M St (TensorDict R) :=
  done <- lift (get (bools tensordict) "done") ;;
  let sub_tensordict := get_sub_tensordict tensordict done in
  if decide (sub_len sub_tensordict = 0%nat) then ret tensordict
  else
    out_key <- lift (first_key (out_keys self)) ;;
    reward <- lift (sub_get floats sub_tensordict out_key) ;;
    in_key <- lift (first_key (in_keys self)) ;;
    smiles <- lift (sub_get ints sub_tensordict in_key) ;;
    smiles_list <- lift (result_mapM (λ smi, vocabulary_decode self smi [-1]) smiles) ;;
    reward <- attempts self smiles_list reward 0 max_attempts ;;
    lift (sub_set_float sub_tensordict out_key
            ((λ r, rmul r (reward_scale self)) <$> reward)).

Definition forward (self : SMILESReward) (tensordict : Batch R)
    : M St (Batch R) :=
  td_next <- _call self (next tensordict) ;;
  ret {| root := root tensordict; next := td_next |}.

(** What [_call] reads before it calls the scoring function: the
    [done] mask, the reward entry named by [out_keys[0]], and the
    decoded texts of the terminal steps of the entry named by
    [in_keys[0]]. *)
Record reads (self : SMILESReward) (tensordict : TensorDict R)
    (done : grid bool) (out_key : string) (rewards : grid R)
    (smiles_list : list string) : Prop := {
  reads_done : bools tensordict !! "done" = Some done;
  reads_out_key : first_key (out_keys self) = Ok out_key;
  reads_reward : floats tensordict !! out_key = Some rewards;
  reads_smiles : ∃ in_key smiles,
    first_key (in_keys self) = Ok in_key
    ∧ ints tensordict !! in_key = Some smiles
    ∧ result_mapM (λ smi, vocabulary_decode self smi [-1])
        (Tensor.masked_select done smiles) = Ok smiles_list;
}.

(** The batch in which the reward of every terminal step has become
    (old reward + score) * scale. *)
Definition rewarded (self : SMILESReward) (tensordict : TensorDict R)
    (done : grid bool) (out_key : string) (rewards : grid R)
    (scores : list R) : TensorDict R :=
  {| bools := bools tensordict;
     ints := ints tensordict;
     floats :=
       <[out_key :=
           Tensor.masked_assign done rewards
             (zip_with (λ r x, rmul (radd r x) (reward_scale self))
                (Tensor.masked_select done rewards) scores)]>
         (floats tensordict) |}.
End SMILESReward.
Arguments SMILESReward R St : clear implicits.
End PPOUtils.

(** ** [decode] as the design document words it

    "iterates indices; skips any index present in [ignore_indices]; skips
    the start token if encountered; stops entirely at the first end token;
    remaining indices map back to characters and are concatenated; applies
    a final normalization pass". *)

Fixpoint take_until {A} (stop : A → bool) (l : list A) : list A :=
  match l with
  | [] => []
  | x :: l' => if stop x then [] else x :: take_until stop l'
  end.

(** "remaining indices map back to characters": the token of an index,
    an index without a token being an error. *)
Definition lookup_char (reversed_vocab : list (Z * string)) (i : number)
    : result string :=
  match Py.dict_get_number reversed_vocab i with
  | Some c => Ok c
  | None => Raise KeyError
  end.

(** "and are concatenated" *)
Definition concatenated (chars : list string) : string :=
  foldr String.append EmptyString chars.

(** "replacing single-letter placeholder tokens with two-letter element
    symbols": in one pass over the text, every [L] becomes [Cl] (chlorine)
    and every [R] becomes [Br] (bromine). *)
Fixpoint element_symbols (s : string) : string :=
  match s with
  | EmptyString => EmptyString
  | String c s' =>
      if Ascii.eqb c "L" then String "C" (String "l" (element_symbols s'))
      else if Ascii.eqb c "R" then String "B" (String "r" (element_symbols s'))
      else String c (element_symbols s')
  end.

Definition decode_in_words (start_index end_index : Z)
    (reversed_vocab : list (Z * string))
    (encoded_smiles ignore_indices : list number) : result string :=
  let not_ignored := filter (λ i, i ∉ ignore_indices) encoded_smiles in
  let not_start := filter (λ i, i ≠ Int start_index) not_ignored in
  let before_end :=
    take_until (λ i, bool_decide (i = Int end_index)) not_start in
  chars ← result_mapM (lookup_char reversed_vocab) before_end;
  Ok (element_symbols (concatenated chars)).

(** ** Well-formed vocabularies

    What [__init__] establishes for two distinct reserved tokens, what
    [create_from_dict] establishes for a dictionary that "should include
    the start and end tokens", and what [add_characters] preserves. *)
Record vocabulary_wf (v : SMILESVocabulary.t) : Prop := {
  wf_special :
    SMILESVocabulary.special_tokens v =
      [SMILESVocabulary.end_token v; SMILESVocabulary.start_token v];
  wf_distinct : SMILESVocabulary.end_token v ≠ SMILESVocabulary.start_token v;
  wf_additional : ∀ c,
    c ∈ SMILESVocabulary.additional_chars v → c ∉ SMILESVocabulary.special_tokens v;
  wf_chars : ∀ c,
    c ∈ SMILESVocabulary.special_tokens v → c ∈ SMILESVocabulary.chars v;
}.

(** The mapping and its inverse agree, and every index survives the
    [float32] array that [encode] returns. *)
Record vocabulary_bijective (v : SMILESVocabulary.t) : Prop := {
  bij_reversed : ∀ c i,
    Py.dict_get (SMILESVocabulary.vocab v) c = Some i →
    Py.dict_get (SMILESVocabulary.reversed_vocab v) i = Some c;
  bij_float32 : ∀ c i,
    Py.dict_get (SMILESVocabulary.vocab v) c = Some i →
    Py.float32_of_Z i = Ok (Int i);
}.

(** The cell that [encode] writes for a token: the index of the token,
    as the [float32] array holds it. *)
Definition cell_of (vocab : list (string * Z)) (c : string) (x : number)
    : Prop :=
  ∃ z, Py.dict_get vocab c = Some z ∧ Py.float32_of_Z z = Ok x.

(** ** The repetition penalty filter *)

Module RepetitionPenalty.
Section filter.
Context {R : Type}.

(** One trajectory of the batch: its terminal flag, its decoded text
    and its named reward entries. *)
Record Trajectory : Type := {
  terminal : bool;
  text : string;
  rewards : gmap string R;
}.

(** Modelled from the spec: the class [PenaliseRepeatedSMILES] of
    [acegen.transforms] (imported and called by
    [examples/impala/impala_multi_node.py]) is not among the source
    files.  Section 4.3 of the design document: the filter keeps an
    archive of the fingerprints seen so far and a running counter of
    repeats, and maps a configured input reward entry to a configured
    output entry. *)
Record PenaliseRepeatedSMILES : Type := {
  in_key : string;
  out_key : string;
  penalty : R;
  archive : gset string;
  repeated_smiles : nat;
}.

(** Modelled from the spec: the fingerprint of a decoded text ("hash or
    exact string"); here the exact string. *)
Definition fingerprint (decoded : string) : string := decoded.

(** Modelled from the spec: the treatment of one trajectory.  "For each
    terminal trajectory in the current batch: compute its fingerprint;
    if found in the archive, replace its shaped reward with a
    configured penalty value; if not found, insert it into the archive
    and leave reward as computed". *)
Definition visit (self : PenaliseRepeatedSMILES) (tr : Trajectory)
    : PenaliseRepeatedSMILES * Trajectory :=
  if terminal tr then
    let key := fingerprint (text tr) in
    if decide (key ∈ archive self) then
      ({| in_key := in_key self; out_key := out_key self;
          penalty := penalty self; archive := archive self;
          repeated_smiles := S (repeated_smiles self) |},
       {| terminal := terminal tr; text := text tr;
          rewards := <[out_key self := penalty self]> (rewards tr) |})
    else
      ({| in_key := in_key self; out_key := out_key self;
          penalty := penalty self; archive := {[key]} ∪ archive self;
          repeated_smiles := repeated_smiles self |},
       {| terminal := terminal tr; text := text tr;
          rewards := match rewards tr !! in_key self with
                     | Some r => <[out_key self := r]> (rewards tr)
                     | None => rewards tr
                     end |})
  else (self, tr).

(** Modelled from the spec: the filter on a batch, "process
    trajectories in their batch-index order". *)
Fixpoint forward (self : PenaliseRepeatedSMILES) (batch : list Trajectory)
    : PenaliseRepeatedSMILES * list Trajectory :=
  match batch with
  | [] => (self, [])
  | tr :: batch' =>
      let '(self', tr') := visit self tr in
      let '(self'', out) := forward self' batch' in
      (self'', tr' :: out)
  end.
End filter.
Arguments Trajectory R : clear implicits.
Arguments PenaliseRepeatedSMILES R : clear implicits.
End RepetitionPenalty.

(** ** Concrete vocabularies and inputs *)

(** The scenario of the design document: the tokens
    [["("; ")"; "1"; "="; "C"; "N"; "O"]] plus the reserved [GO]/[EOS]. *)
Definition example_vocabulary : SMILESVocabulary.t :=
  SMILESVocabulary.add_characters
    (SMILESVocabulary.__init__ "GO" 0 "EOS" 1 140 (Some char_tokenizer))
    ["("; ")"; "1"; "="; "C"; "N"; "O"].

(** A vocabulary with the placeholders of chlorine and bromine. *)
Definition halogen_vocabulary : SMILESVocabulary.t :=
  SMILESVocabulary.add_characters
    (SMILESVocabulary.__init__ "GO" 0 "EOS" 1 140 (Some char_tokenizer))
    ["C"; "L"; "R"].

(** A vocabulary whose reserved tokens are single characters. *)
Definition caret_vocabulary : SMILESVocabulary.t :=
  SMILESVocabulary.add_characters
    (SMILESVocabulary.__init__ "^" 0 "$" 1 140 (Some char_tokenizer))
    ["C"; "L"].

(** A scoring function in the manner of the [dummy_reward_function] of the
    tests, one point per text, that raises a [RuntimeError] on its first
    [failures] calls; its state is the number of calls made so far. *)
Definition flaky_scoring (failures : nat) (smiles : list string) (calls : nat)
    : result (list Z) * nat :=
  (if (calls <? failures)%nat then Raise RuntimeError
   else Ok ((λ _, 1) <$> smiles),
   S calls).

(** The scenario of the design document: two trajectories of five steps,
    the first one terminal at its last step, the second never terminal;
    all rewards are zero.  There is a second reward entry, [reward2], as
    in the parametrised test of the repository. *)
Definition example_done : grid bool :=
  [[false; false; false; false; true]; [false; false; false; false; false]].

Definition example_zeros : grid Z := [[0; 0; 0; 0; 0]; [0; 0; 0; 0; 0]].

Definition example_smiles : grid (list Z) :=
  [[[4; -1; -1; -1]; [4; 4; -1; -1]; [4; 4; 6; -1]; [4; 4; 6; 7]; [4; 4; 6; 7]];
   [[5; -1; -1; -1]; [5; 4; -1; -1]; [5; 4; 4; -1]; [5; 4; 4; 3]; [5; 4; 4; 3]]].

(** The same with a reward of 3 already stored at the terminal step. *)
Definition example_prior : grid Z := [[0; 0; 0; 0; 3]; [0; 0; 0; 0; 0]].

Definition example_next (flags : grid bool) (rewards : grid Z) : TensorDict Z :=
  {| bools := {[ "done" := flags; "terminated" := flags ]};
     ints := {[ "SMILES" := example_smiles ]};
     floats := {[ "reward" := rewards; "reward2" := rewards ]} |}.

Definition example_batch (flags : grid bool) (rewards : grid Z) : Batch Z :=
  {| root := {| bools := ∅; ints := ∅; floats := ∅ |};
     next := example_next flags rewards |}.

Definition example_ppo (failures : nat) (out_keys : option (list string))
    (reward_scale : Z) : PPOUtils.SMILESReward Z nat :=
  PPOUtils.__init__ (SMILESVocabulary.decode_ints example_vocabulary)
    (flaky_scoring failures) None out_keys reward_scale.

(** A scoring function that raises the given exception at every call. *)
Definition raising_scoring (e : exn) (smiles : list string) (calls : nat)
    : result (list Z) * nat :=
  (Raise e, S calls).

Definition example_ppo_raising (e : exn) : PPOUtils.SMILESReward Z nat :=
  PPOUtils.__init__ (SMILESVocabulary.decode_ints example_vocabulary)
    (raising_scoring e) None None 1.

Definition example_transform (out_keys : option (list string))
    : RewardTransform.SMILESReward Z nat :=
  RewardTransform.__init__ (flaky_scoring 0)
    (SMILESVocabulary.decode_ints example_vocabulary) None out_keys.

(** A batch for the repetition filter: the text [CCO] at the batch indices
    0 and 2, another text in between. *)
Definition example_filter : RepetitionPenalty.PenaliseRepeatedSMILES Z :=
  {| RepetitionPenalty.in_key := "reward";
     RepetitionPenalty.out_key := "reward";
     RepetitionPenalty.penalty := 0;
     RepetitionPenalty.archive := ∅;
     RepetitionPenalty.repeated_smiles := 0 |}.

Definition example_trajectory (text : string) (reward : Z)
    : RepetitionPenalty.Trajectory Z :=
  {| RepetitionPenalty.terminal := true;
     RepetitionPenalty.text := text;
     RepetitionPenalty.rewards := {[ "reward" := reward ]} |}.

(** ** The normalisation of [decode], character by character *)

(** Every occurrence of the character [a] replaced by the string [new]. *)
Fixpoint substitute (a : ascii) (new : string) (s : string) : string :=
  match s with
  | EmptyString => EmptyString
  | String c s' =>
      if Ascii.eqb a c then new +:+ substitute a new s'
      else String c (substitute a new s')
  end.

(** The character [a] occurs in the string. *)
Fixpoint occurs (a : ascii) (s : string) : bool :=
  match s with
  | EmptyString => false
  | String c s' => Ascii.eqb a c || occurs a s'
  end.

(** * Properties *)

(** ** Dictionaries *)

Section dict_facts.
Context {K V : Type} `{EqDecision K}.
Implicit Types (d items : list (K * V)) (k : K) (v : V).

Lemma dict_get_Some_elem d k v : Py.dict_get d k = Some v → (k, v) ∈ d.
Proof.
  induction d as [|[k' v'] d IH]; simpl; [done|].
  case_decide; intros; simplify_eq; [left | right; auto].
Qed.

Lemma dict_get_None d k : Py.dict_get d k = None ↔ k ∉ d.*1.
Proof.
  induction d as [|[k' v'] d IH]; simpl.
  - split; [intros _; apply not_elem_of_nil | done].
  - rewrite not_elem_of_cons, <-IH.
    destruct (decide (k' = k)) as [->|Hne]; split; try done.
    + by intros [? _].
    + by intros [_ ?].
Qed.

Lemma dict_get_is_Some d k : is_Some (Py.dict_get d k) ↔ k ∈ d.*1.
Proof.
  rewrite <-not_eq_None_Some, dict_get_None.
  destruct (decide (k ∈ d.*1)); naive_solver.
Qed.

Lemma dict_get_NoDup d k v :
  NoDup d.*1 → (k, v) ∈ d → Py.dict_get d k = Some v.
Proof.
  induction d as [|[k' v'] d IH]; simpl; intros Hnd Hin.
  - by apply elem_of_nil in Hin.
  - apply NoDup_cons in Hnd as [Hk' Hnd].
    apply elem_of_cons in Hin as [Heq|Hin].
    + simplify_eq. by rewrite decide_True.
    + rewrite decide_False; [by apply IH|].
      intros ->. apply Hk'. apply list_elem_of_fmap. by exists (k, v).
Qed.

Lemma dict_set_fresh d k v :
  k ∉ d.*1 → Py.dict_set d k v = d ++ [(k, v)].
Proof.
  induction d as [|[k' v'] d IH]; simpl; [done|].
  rewrite not_elem_of_cons. intros [Hne Hk].
  rewrite decide_False by done. by rewrite IH.
Qed.

Lemma dict_of_items_from d items :
  NoDup (d.*1 ++ items.*1) →
  foldl (λ d kv, Py.dict_set d kv.1 kv.2) d items = d ++ items.
Proof.
  revert d. induction items as [|[k v] items IH]; intros d Hnd; simpl.
  - by rewrite app_nil_r.
  - rewrite dict_set_fresh.
    + rewrite IH; [by rewrite <-app_assoc|].
      by rewrite fmap_app, <-app_assoc.
    + apply NoDup_app in Hnd as (_ & Hdisj & _).
      intros Hk. apply (Hdisj k Hk). simpl. left.
Qed.

(** A dictionary built from items with pairwise distinct keys holds
    exactly those items, in their order. *)
Lemma dict_of_items_NoDup items :
  NoDup items.*1 → Py.dict_of_items items = items.
Proof. intros Hnd. unfold Py.dict_of_items. by rewrite dict_of_items_from. Qed.
End dict_facts.

Lemma dict_reversed_NoDup {K V} `{EqDecision V} (d : list (K * V)) :
  NoDup d.*2 → Py.dict_reversed d = (λ kv, (kv.2, kv.1)) <$> d.
Proof.
  intros Hnd. unfold Py.dict_reversed. apply dict_of_items_NoDup.
  rewrite <-list_fmap_compose. done.
Qed.

(** ** [encode] *)

Section float32_facts.
Lemma round_to_small (p z : Z) : Z.abs z < 2 ^ p → 0 ≤ p → Py.round_to p z = z.
Proof.
  intros Hz Hp. unfold Py.round_to.
  destruct (decide (Z.abs z = 0)) as [Hzero|Hnz].
  - rewrite Hzero. simpl. destruct (0 <? p) eqn:Hlt; [done|].
    apply Z.ltb_ge in Hlt. assert (p = 0) as -> by lia. simpl in Hz. lia.
  - assert (Z.log2 (Z.abs z) < p) as Hlog
      by (apply Z.log2_lt_pow2; lia).
    by rewrite (proj2 (Z.ltb_lt _ _) Hlog).
Qed.

(** An integer of magnitude at most [2^24] is stored as it is. *)
Lemma float32_exact (z : Z) :
  Z.abs z ≤ 2 ^ 24 → Py.float32_of_Z z = Ok (Int z).
Proof.
  intros Hz. unfold Py.float32_of_Z, Py.float64_of_Z.
  assert (2 ^ 24 < 2 ^ 53) as H53 by (by apply Z.pow_lt_mono_r).
  assert (2 ^ 24 < 2 ^ 128) as H128 by (by apply Z.pow_lt_mono_r).
  assert (2 ^ 24 < 2 ^ 1024) as H1024 by (by apply Z.pow_lt_mono_r).
  rewrite round_to_small by lia.
  rewrite (proj2 (Z.ltb_lt _ _)) by lia.
  unfold Py.float32_of_float64.
  destruct (decide (Z.abs z = 2 ^ 24)) as [Heq|Hne].
  - assert (z = 2 ^ 24 ∨ z = - 2 ^ 24) as [-> | ->] by lia; reflexivity.
  - rewrite round_to_small by lia.
    by rewrite (proj2 (Z.ltb_lt _ _)) by lia.
Qed.
End float32_facts.

Section encode_facts.
Import SMILESVocabulary.

Lemma encode_loop_ok vocab char_list : ∀ i smiles_matrix xs,
  Forall2 (cell_of vocab) char_list xs →
  length smiles_matrix = (i + length char_list)%nat →
  encode_loop vocab i char_list smiles_matrix
  = Ok (take i smiles_matrix ++ xs).
Proof.
  induction char_list as [|c cs IH]; intros i m xs Hxs Hlen.
  - apply Forall2_nil_inv_l in Hxs as ->. simpl in *.
    rewrite app_nil_r, firstn_all2 by lia. done.
  - apply Forall2_cons_inv_l in Hxs as (x & xs' & (z & Hz & Hx) & Hxs & ->).
    simpl in *. rewrite Hz, Hx.
    rewrite (IH (S i) _ xs') by (rewrite ?length_insert; done || lia).
    f_equal.
    rewrite (take_S_r _ _ x) by (apply list_lookup_insert_eq; lia).
    rewrite take_insert_ge by lia. by rewrite <-app_assoc.
Qed.

Lemma encode_loop_missing vocab char_list : ∀ i smiles_matrix,
  (∀ c z, Py.dict_get vocab c = Some z → ∃ x, Py.float32_of_Z z = Ok x) →
  (∃ c, c ∈ char_list ∧ Py.dict_get vocab c = None) →
  encode_loop vocab i char_list smiles_matrix = Raise KeyError.
Proof.
  induction char_list as [|c cs IH]; intros i m Hfits (c' & Hin & Hc').
  - by apply elem_of_nil in Hin.
  - simpl. destruct (Py.dict_get vocab c) as [z|] eqn:Hc; [|done].
    destruct (Hfits c z Hc) as [x ->].
    apply IH; [done|]. exists c'. split; [|done].
    apply elem_of_cons in Hin as [->|]; [congruence|done].
Qed.

(** The indices of a list of known tokens. *)
Lemma known_tokens_indices (vocab : list (string * Z)) char_list :
  (∀ c, c ∈ char_list → is_Some (Py.dict_get vocab c)) →
  ∃ zs, Forall2 (λ c z, Py.dict_get vocab c = Some z) char_list zs.
Proof.
  induction char_list as [|c cs IH]; intros Hall.
  - by exists [].
  - destruct (Hall c) as [z Hz]; [left|].
    destruct IH as [zs Hzs]; [intros; apply Hall; by right|].
    exists (z :: zs). by constructor.
Qed.

Lemma known_tokens_cells (vocab : list (string * Z)) char_list :
  (∀ c z, Py.dict_get vocab c = Some z → ∃ x, Py.float32_of_Z z = Ok x) →
  (∀ c, c ∈ char_list → is_Some (Py.dict_get vocab c)) →
  ∃ xs, Forall2 (cell_of vocab) char_list xs.
Proof.
  intros Hfits. induction char_list as [|c cs IH]; intros Hall.
  - by exists [].
  - destruct (Hall c) as [z Hz]; [left|].
    destruct (Hfits c z Hz) as [x Hx].
    destruct IH as [xs Hxs]; [intros; apply Hall; by right|].
    exists (x :: xs). constructor; [by exists z|done].
Qed.

Lemma encode_known self tok smiles xs :
  tokenizer self = Some tok →
  Forall2 (cell_of (vocab self)) (tokenize tok smiles) xs →
  encode self smiles = Ok xs.
Proof.
  intros Htok Hxs. unfold encode. rewrite Htok. simpl.
  erewrite encode_loop_ok; [done|done|].
  rewrite length_replicate. lia.
Qed.
End encode_facts.

(** C8.  No index of the vocabulary is too large for the conversion to a C
    double that the assignment into the [float32] array makes.  When the
    text has a token that is not in the vocabulary, [encode] fails with the
    out-of-vocabulary error, the [KeyError] of the dictionary access (there
    is no handler and no retry around it); when all its tokens are in the
    vocabulary, [encode] succeeds and returns one cell per token: the index
    of that token as the [float32] array holds it, which is the index
    itself when its magnitude is at most [2^24]. *)
Theorem encode_missing_token_or_indices (self : SMILESVocabulary.t)
    (tok : Tokenizer) (smiles : string) :
  SMILESVocabulary.tokenizer self = Some tok →
  (∀ c z, Py.dict_get (SMILESVocabulary.vocab self) c = Some z →
          ∃ x, Py.float32_of_Z z = Ok x) →
  ((∃ c, c ∈ tokenize tok smiles
         ∧ Py.dict_get (SMILESVocabulary.vocab self) c = None) →
   SMILESVocabulary.encode self smiles = Raise KeyError)
  ∧ ((∀ c, c ∈ tokenize tok smiles →
           is_Some (Py.dict_get (SMILESVocabulary.vocab self) c)) →
     ∃ indices,
       SMILESVocabulary.encode self smiles = Ok indices
       ∧ length indices = length (tokenize tok smiles)
       ∧ Forall2 (λ c x, ∃ z, Py.dict_get (SMILESVocabulary.vocab self) c = Some z
                              ∧ Py.float32_of_Z z = Ok x
                              ∧ (Z.abs z ≤ 2 ^ 24 → x = Int z))
                 (tokenize tok smiles) indices).
Proof.
  intros Htok Hfits. split.
  - intros Hmiss. unfold SMILESVocabulary.encode. rewrite Htok.
    by apply encode_loop_missing.
  - intros Hall. destruct (known_tokens_cells _ _ Hfits Hall) as [xs Hxs].
    exists xs. split; [by eapply encode_known|]. split.
    + symmetry. by eapply Forall2_length.
    + eapply Forall2_impl; [exact Hxs|].
      intros c x (z & Hz & Hx). exists z. split; [done|]. split; [done|].
      intros Hsmall. rewrite float32_exact in Hx by done. congruence.
Qed.

(** ** [decode] *)

Section canonical_facts.
Lemma replace_from_single (a : ascii) (new s : string) :
  Py.replace_from (String a EmptyString) new 0 s = substitute a new s.
Proof.
  induction s as [|c s IH]; [done|].
  cbn [Py.replace_from substitute String.prefix String.length Nat.pred].
  destruct (ascii_dec a c) as [->|Hne].
  - rewrite Ascii.eqb_refl.
    replace (String.prefix "" s) with true by (by destruct s).
    by rewrite IH.
  - rewrite (proj2 (Ascii.eqb_neq a c) Hne). by rewrite IH.
Qed.

(** [s.replace(a, new)] for a one-character [a] replaces every occurrence
    of that character. *)
Lemma replace_single (a : ascii) (new s : string) :
  Py.replace s (String a EmptyString) new = substitute a new s.
Proof. apply replace_from_single. Qed.

Lemma canonical_substitute (s : string) :
  SMILESVocabulary.canonical s
  = substitute "R" "Br" (substitute "L" "Cl" s).
Proof. unfold SMILESVocabulary.canonical. by rewrite !replace_single. Qed.

(** The two replacements in sequence are the one-pass replacement of the
    placeholders by the element symbols. *)
Lemma canonical_element_symbols (s : string) :
  SMILESVocabulary.canonical s = element_symbols s.
Proof.
  rewrite canonical_substitute. induction s as [|c s IH]; [done|].
  cbn [substitute element_symbols].
  destruct (ascii_dec c "L") as [->|HL].
  - change (substitute "R" "Br"
              (String "C" (String "l" (substitute "L" "Cl" s)))
            = String "C" (String "l" (element_symbols s))).
    change (String "C" (String "l"
              (substitute "R" "Br" (substitute "L" "Cl" s)))
            = String "C" (String "l" (element_symbols s))).
    by rewrite IH.
  - rewrite (proj2 (Ascii.eqb_neq c "L") HL).
    rewrite (proj2 (Ascii.eqb_neq "L" c)) by congruence.
    cbn [substitute].
    destruct (ascii_dec c "R") as [->|HR].
    + change (String "B" (String "r"
                (substitute "R" "Br" (substitute "L" "Cl" s)))
              = String "B" (String "r" (element_symbols s))).
      by rewrite IH.
    + rewrite (proj2 (Ascii.eqb_neq c "R") HR).
      rewrite (proj2 (Ascii.eqb_neq "R" c)) by congruence.
      by rewrite IH.
Qed.

Lemma append_empty_r (s : string) : s +:+ "" = s.
Proof.
  induction s as [|c s IH]; [done|].
  change (String c (s +:+ "") = String c s). by rewrite IH.
Qed.

Lemma join_concatenated (chars : list string) :
  Py.join chars = concatenated chars.
Proof.
  unfold Py.join, concatenated. induction chars as [|c chars IH]; [done|].
  destruct chars as [|c' chars].
  - change (c = c +:+ ""). by rewrite append_empty_r.
  - change (c +:+ "" +:+ String.concat "" (c' :: chars)
            = c +:+ foldr String.append "" (c' :: chars)).
    by rewrite IH.
Qed.
End canonical_facts.

Section decode_facts.
Import SMILESVocabulary.

(** The loop computes the characters of the indices that are neither
    ignored nor the start index, up to the first end index. *)
Lemma decode_loop_in_words self ignore_indices s e :
  Py.dict_get (vocab self) (start_token self) = Some s →
  Py.dict_get (vocab self) (end_token self) = Some e →
  ∀ encoded_smiles chars,
    decode_loop self ignore_indices encoded_smiles chars
    = (cs ← result_mapM (lookup_char (reversed_vocab self))
             (take_until (λ i, bool_decide (i = Int e))
                (filter (λ i, i ≠ Int s)
                   (filter (λ i, i ∉ ignore_indices) encoded_smiles)));
       Ok (chars ++ cs)).
Proof.
  intros Hs He. induction encoded_smiles as [|i rest IH]; intros acc.
  - simpl. by rewrite app_nil_r.
  - simpl. rewrite Hs, He.
    destruct (decide (i ∈ ignore_indices)) as [Hi|Hi].
    { rewrite filter_cons_False by tauto. apply IH. }
    rewrite filter_cons_True by done.
    destruct (decide (i = Int s)) as [->|Hne].
    { rewrite filter_cons_False by tauto. apply IH. }
    rewrite filter_cons_True by done. simpl.
    destruct (decide (i = Int e)) as [->|Hne'].
    { rewrite bool_decide_eq_true_2 by done. simpl. by rewrite app_nil_r. }
    rewrite bool_decide_eq_false_2 by done. simpl.
    unfold lookup_char at 1.
    destruct (Py.dict_get_number (reversed_vocab self) i) as [c|]; [|done].
    rewrite IH. simpl.
    destruct (result_mapM _ _) as [cs|]; simpl; [|done].
    by rewrite <-app_assoc.
Qed.
End decode_facts.

(** C4.  For a vocabulary that contains its two reserved tokens, [decode]
    skips every index of the ignore set, skips the start index, stops at
    the first end index that is left (nothing is appended for it or after
    it), concatenates the tokens of the remaining indices and replaces, in
    the whole string, every placeholder [L] by [Cl] and every [R] by [Br];
    an index without a token is a [KeyError]. *)
Theorem decode_matches_description (self : SMILESVocabulary.t)
    (encoded_smiles ignore_indices : list number) (s e : Z) :
  Py.dict_get (SMILESVocabulary.vocab self) (SMILESVocabulary.start_token self)
    = Some s →
  Py.dict_get (SMILESVocabulary.vocab self) (SMILESVocabulary.end_token self)
    = Some e →
  SMILESVocabulary.decode self encoded_smiles ignore_indices
  = decode_in_words s e (SMILESVocabulary.reversed_vocab self)
      encoded_smiles ignore_indices.
Proof.
  intros Hs He. unfold SMILESVocabulary.decode, decode_in_words.
  rewrite (decode_loop_in_words _ _ s e Hs He). simpl.
  destruct (result_mapM _ _) as [chars|]; simpl; [|done].
  by rewrite canonical_element_symbols, join_concatenated.
Qed.

(** ** Round trip *)

Section roundtrip_facts.
Import SMILESVocabulary.

Lemma vocabulary_bijective_items self :
  Forall (λ ci, Py.dict_get (reversed_vocab self) ci.2 = Some ci.1
                ∧ Py.float32_of_Z ci.2 = Ok (Int ci.2)) (vocab self) →
  vocabulary_bijective self.
Proof.
  intros Hall. rewrite Forall_forall in Hall.
  split; intros c i Hci%dict_get_Some_elem; by destruct (Hall _ Hci).
Qed.

Lemma bijective_index_eq self c1 c2 i :
  vocabulary_bijective self →
  Py.dict_get (vocab self) c1 = Some i →
  Py.dict_get (vocab self) c2 = Some i → c1 = c2.
Proof.
  intros Hbij H1%(bij_reversed _ Hbij) H2%(bij_reversed _ Hbij). congruence.
Qed.

Lemma decode_loop_tokens self s e :
  vocabulary_bijective self →
  Py.dict_get (vocab self) (start_token self) = Some s →
  Py.dict_get (vocab self) (end_token self) = Some e →
  ∀ tokens zs chars,
    Forall2 (λ c z, Py.dict_get (vocab self) c = Some z) tokens zs →
    decode_loop self [] (Int <$> zs) chars
    = Ok (chars ++ take_until (λ c, bool_decide (c = end_token self))
                     (filter (λ c, c ≠ start_token self) tokens)).
Proof.
  intros Hbij Hs He tokens zs chars Hzs. revert chars.
  induction Hzs as [|c z tokens zs Hz _ IH]; intros chars.
  - simpl. by rewrite app_nil_r.
  - rewrite fmap_cons. simpl. rewrite Hs, He.
    destruct (decide (Int z = Int s)) as [[= ->]|Hzs'].
    { rewrite filter_cons_False; [apply IH|].
      intros Hne. apply Hne. by eapply bijective_index_eq. }
    rewrite filter_cons_True by congruence. simpl.
    destruct (decide (Int z = Int e)) as [[= ->]|Hze].
    { rewrite bool_decide_eq_true_2 by (by eapply bijective_index_eq).
      by rewrite app_nil_r. }
    rewrite bool_decide_eq_false_2 by congruence.
    rewrite (bij_reversed _ Hbij _ _ Hz), IH. by rewrite <-app_assoc.
Qed.

Lemma float32_indices self tokens zs :
  vocabulary_bijective self →
  Forall2 (λ c z, Py.dict_get (vocab self) c = Some z) tokens zs →
  Forall2 (cell_of (vocab self)) tokens (Int <$> zs).
Proof.
  intros Hbij. induction 1 as [|c z tokens zs Hz _ IH]; [done|].
  rewrite fmap_cons. constructor; [|done].
  exists z. split; [done|]. by apply (bij_float32 _ Hbij c).
Qed.

Lemma take_until_none {A} (stop : A → bool) (l : list A) :
  (∀ x, x ∈ l → stop x = false) → take_until stop l = l.
Proof.
  induction l as [|x l IH]; intros Hall; simpl; [done|].
  rewrite (Hall x) by left. rewrite IH; [done|]. intros; apply Hall; by right.
Qed.

Lemma filter_all {A} (P : A → Prop) `{∀ x, Decision (P x)} (l : list A) :
  (∀ x, x ∈ l → P x) → filter P l = l.
Proof.
  induction l as [|x l IH]; intros Hall; [done|].
  rewrite filter_cons_True by (apply Hall; left).
  rewrite IH; [done|]. intros; apply Hall; by right.
Qed.
End roundtrip_facts.

(** C1 (as amended).  For a bijective vocabulary that contains its two
    reserved tokens and a text whose tokens are all in the vocabulary,
    [decode (encode text)] is the concatenation of the tokens of the text,
    without the start tokens and cut at the first end token, after the
    replacement of [L] by [Cl] and of [R] by [Br]; when no token of the text
    is a reserved one, it is the whole text modulo that replacement.  The
    maximum length plays no role. *)
Theorem decode_encode_tokens (self : SMILESVocabulary.t) (tok : Tokenizer)
    (smiles : string) :
  SMILESVocabulary.tokenizer self = Some tok →
  vocabulary_bijective self →
  is_Some (Py.dict_get (SMILESVocabulary.vocab self)
             (SMILESVocabulary.start_token self)) →
  is_Some (Py.dict_get (SMILESVocabulary.vocab self)
             (SMILESVocabulary.end_token self)) →
  (∀ c, c ∈ tokenize tok smiles →
        is_Some (Py.dict_get (SMILESVocabulary.vocab self) c)) →
  ∃ indices,
    SMILESVocabulary.encode self smiles = Ok indices
    ∧ SMILESVocabulary.decode self indices []
      = Ok (SMILESVocabulary.canonical
              (Py.join
                 (take_until
                    (λ c, bool_decide (c = SMILESVocabulary.end_token self))
                    (filter (λ c, c ≠ SMILESVocabulary.start_token self)
                       (tokenize tok smiles)))))
    ∧ ((∀ c, c ∈ tokenize tok smiles →
             c ≠ SMILESVocabulary.start_token self
             ∧ c ≠ SMILESVocabulary.end_token self) →
       SMILESVocabulary.decode self indices []
       = Ok (SMILESVocabulary.canonical (Py.join (tokenize tok smiles)))).
Proof.
  intros Htok Hbij [s Hs] [e He] Hall.
  destruct (known_tokens_indices _ _ Hall) as [zs Hzs].
  exists (Int <$> zs).
  assert (SMILESVocabulary.decode self (Int <$> zs) []
          = Ok (SMILESVocabulary.canonical
                  (Py.join
                     (take_until
                        (λ c, bool_decide (c = SMILESVocabulary.end_token self))
                        (filter (λ c, c ≠ SMILESVocabulary.start_token self)
                           (tokenize tok smiles)))))) as Hdec.
  { unfold SMILESVocabulary.decode.
    by rewrite (decode_loop_tokens _ s e Hbij Hs He _ _ [] Hzs). }
  split; [|split; [done|]].
  - apply (encode_known _ _ _ _ Htok). by apply float32_indices.
  - intros Hplain. rewrite Hdec. do 3 f_equal.
    rewrite filter_all by (intros c Hc; by apply Hplain).
    apply take_until_none. intros c Hc.
    apply bool_decide_eq_false_2. by apply Hplain.
Qed.

Lemma example_vocabulary_bijective : vocabulary_bijective example_vocabulary.
Proof.
  apply vocabulary_bijective_items.
  apply (bool_decide_unpack _). by vm_compute.
Qed.

Lemma decode_encode_tokens_witness :
  ∃ indices,
    SMILESVocabulary.encode example_vocabulary "C1=CC=CC=C1" = Ok indices
    ∧ SMILESVocabulary.decode example_vocabulary indices [] = Ok "C1=CC=CC=C1".
Proof.
  destruct (decode_encode_tokens example_vocabulary char_tokenizer "C1=CC=CC=C1")
    as (indices & Henc & _ & Hdec).
  - reflexivity.
  - exact example_vocabulary_bijective.
  - eexists; reflexivity.
  - eexists; reflexivity.
  - intros c Hc. vm_compute in Hc.
    repeat (apply elem_of_cons in Hc as [->|Hc]; [eexists; reflexivity|]).
    by apply elem_of_nil in Hc.
  - exists indices. split; [done|]. rewrite Hdec; [done|].
    intros c Hc. vm_compute in Hc.
    repeat (apply elem_of_cons in Hc as [->|Hc]; [by vm_compute|]).
    by apply elem_of_nil in Hc.
Defined.

(** C1, counterexample.  With the single-character reserved tokens [^] and
    [$], the text [C$C] consists of vocabulary tokens only and is shorter
    than the maximum length, yet [decode (encode "C$C")] is ["C"]: decoding
    stops at the end token. *)
Lemma decode_encode_stops_at_end_token :
  (∀ c, c ∈ tokenize char_tokenizer "C$C" →
        is_Some (Py.dict_get (SMILESVocabulary.vocab caret_vocabulary) c))
  ∧ Z.of_nat (String.length "C$C") < SMILESVocabulary.max_length caret_vocabulary
  ∧ ∃ indices,
      SMILESVocabulary.encode caret_vocabulary "C$C" = Ok indices
      ∧ SMILESVocabulary.decode caret_vocabulary indices [] = Ok "C"
      ∧ SMILESVocabulary.decode caret_vocabulary indices []
        ≠ Ok (SMILESVocabulary.canonical "C$C")
      ∧ SMILESVocabulary.canonical "C" ≠ SMILESVocabulary.canonical "C$C".
Proof.
  split; [|split; [done|]].
  - intros c Hc. vm_compute in Hc.
    repeat (apply elem_of_cons in Hc as [->|Hc]; [eexists; reflexivity|]).
    by apply elem_of_nil in Hc.
  - exists [Int 0; Int 2; Int 0]. repeat split; [done..| |]; vm_compute; discriminate.
Qed.

(** C6.  [create_from_smiles] builds the configured vocabulary, collects
    the tokens of the corpus with it, and then starts again from [cls()]:
    the vocabulary it returns has no tokenizer, so that [encode] raises,
    and it has the default reserved tokens whatever was configured.
    [create_from_dict] on the very same mapping keeps both. *)
Theorem create_from_smiles_drops_configuration :
  let corpus := ["CC(N)=O"; "C1CC1"] in
  let from_corpus :=
    SMILESVocabulary.create_from_smiles corpus char_tokenizer "GO" 0 "EOS" 1 140 in
  let from_dict :=
    SMILESVocabulary.create_from_dict (SMILESVocabulary.vocab from_corpus)
      "GO" "EOS" 140 (Some char_tokenizer) in
  SMILESVocabulary.vocab from_dict = SMILESVocabulary.vocab from_corpus
  ∧ SMILESVocabulary.encode from_dict "C1CC1" = Ok (Int <$> [4; 2; 4; 4; 2])
  ∧ SMILESVocabulary.encode from_corpus "C1CC1" = Raise RuntimeError
  ∧ SMILESVocabulary.tokenizer from_corpus = None
  ∧ SMILESVocabulary.start_token
      (SMILESVocabulary.create_from_smiles corpus char_tokenizer "^" 0 "$" 1 140)
    = "GO"
  ∧ SMILESVocabulary.end_token
      (SMILESVocabulary.create_from_smiles corpus char_tokenizer "^" 0 "$" 1 140)
    = "EOS"
  ∧ SMILESVocabulary.start_token
      (SMILESVocabulary.create_from_dict (SMILESVocabulary.vocab from_corpus)
         "^" "$" 140 (Some char_tokenizer))
    = "^".
Proof. vm_compute. repeat split; reflexivity. Qed.

(** ** [add_characters] *)

Section enumerated_dict.
(** The dictionary [dict(zip(keys, range(len(keys))))] for pairwise
    distinct keys. *)
Context (keys : list string) (Hnd : NoDup keys).

Let d := Py.dict_of_items (zip keys (Py.range (length keys))).

Lemma enumerated_items : d = zip keys (Py.range (length keys)).
Proof.
  apply dict_of_items_NoDup. rewrite fst_zip; [done|].
  unfold Py.range. rewrite length_seqZ. lia.
Qed.

Lemma enumerated_lookup c (i : nat) :
  zip keys (Py.range (length keys)) !! i = Some (c, Z.of_nat i)
  ↔ keys !! i = Some c.
Proof.
  rewrite lookup_zip_with_Some. split.
  - intros (c' & z & ? & ? & _). by simplify_eq.
  - intros Hc. exists c, (Z.of_nat i). split; [done|]. split; [done|].
    unfold Py.range. apply lookup_seqZ. split; [lia|].
    apply lookup_lt_Some in Hc. lia.
Qed.

Lemma enumerated_get c (i : nat) :
  keys !! i = Some c → Py.dict_get d c = Some (Z.of_nat i).
Proof.
  intros Hc. rewrite enumerated_items. apply dict_get_NoDup.
  - rewrite fst_zip; [done|]. unfold Py.range. rewrite length_seqZ. lia.
  - apply list_elem_of_lookup. exists i. by apply enumerated_lookup.
Qed.

Lemma enumerated_get_inv c z :
  Py.dict_get d c = Some z →
  0 ≤ z < Z.of_nat (length keys) ∧ keys !! Z.to_nat z = Some c.
Proof.
  rewrite enumerated_items. intros Hc%dict_get_Some_elem.
  apply list_elem_of_lookup in Hc as [i Hi].
  apply lookup_zip_with_Some in Hi as (c' & z' & ? & Hc' & Hz').
  simplify_eq. unfold Py.range in Hz'. apply lookup_seqZ in Hz' as [-> Hlt].
  rewrite Z.add_0_l, Nat2Z.id. split; [lia|done].
Qed.

Lemma enumerated_reversed_items :
  Py.dict_reversed d = zip (Py.range (length keys)) keys.
Proof.
  rewrite dict_reversed_NoDup.
  - rewrite enumerated_items.
    generalize (Py.range (length keys)). clear.
    induction keys as [|k ks IH]; intros [|z zs]; simpl; try done.
    by rewrite IH.
  - rewrite enumerated_items, snd_zip; [apply NoDup_seqZ|].
    unfold Py.range. rewrite length_seqZ. lia.
Qed.

Lemma enumerated_reversed_get c z :
  Py.dict_get (Py.dict_reversed d) z = Some c ↔ Py.dict_get d c = Some z.
Proof.
  assert (Hlen : length (Py.range (length keys)) = length keys).
  { unfold Py.range. rewrite length_seqZ. lia. }
  rewrite enumerated_reversed_items. split.
  - intros Hz%dict_get_Some_elem.
    apply list_elem_of_lookup in Hz as [i Hi].
    apply lookup_zip_with_Some in Hi as (z' & c' & ? & Hz' & Hc').
    simplify_eq. unfold Py.range in Hz'. apply lookup_seqZ in Hz' as [-> _].
    rewrite Z.add_0_l. by apply enumerated_get.
  - intros Hc. apply enumerated_get_inv in Hc as [Hz Hc].
    apply dict_get_NoDup.
    + rewrite fst_zip by lia. apply NoDup_seqZ.
    + apply list_elem_of_lookup. exists (Z.to_nat z).
      apply lookup_zip_with_Some. exists z, c.
      split; [done|]. split; [|done].
      unfold Py.range. apply lookup_seqZ. lia.
Qed.
End enumerated_dict.

Section add_characters_facts.
Import SMILESVocabulary.

Lemma add_characters_additional self new_chars c :
  c ∈ additional_chars (add_characters self new_chars)
  ↔ c ∈ additional_chars self ∨ (c ∈ new_chars ∧ c ∉ chars self).
Proof.
  simpl. generalize (additional_chars self) as acc.
  induction new_chars as [|char new_chars IH]; intros acc; simpl.
  - split; [by left|]. intros [?|[Hin _]]; [done|by apply elem_of_nil in Hin].
  - rewrite IH, elem_of_cons. destruct (decide (char ∈ chars self)) as [Hin|Hin].
    + split; [intros [?|[? ?]]; [by left|right; by auto]|].
      intros [?|[[->|?] ?]]; [by left|done|by right].
    + rewrite elem_of_union, elem_of_singleton.
      split; [intros [[->|?]|[? ?]]; [by right; auto|by left|by right; auto]|].
      intros [?|[[->|?] ?]]; [left; by right|left; by left|by right].
Qed.

Lemma sorted_elements (X : gset string) :
  let l := merge_sort String.le (elements X) in
  Sorted String.le l ∧ NoDup l ∧ ∀ c, c ∈ l ↔ c ∈ X.
Proof.
  simpl. split; [|split].
  - apply (Sorted_merge_sort String.le).
  - rewrite (merge_sort_Permutation String.le). apply NoDup_elements.
  - intros c. rewrite (merge_sort_Permutation String.le). apply elem_of_elements.
Qed.

Lemma add_characters_NoDup self new_chars :
  vocabulary_wf self → NoDup (chars (add_characters self new_chars)).
Proof.
  intros Hwf. simpl.
  pose proof (add_characters_additional self new_chars) as Hadd.
  simpl in Hadd. destruct (sorted_elements
    (additional_chars (add_characters self new_chars))) as (_ & Hnd & Hin).
  simpl in Hnd, Hin.
  apply NoDup_app. split; [done|]. split.
  - intros c Hc%Hin%Hadd Hsp. destruct Hc as [Hc|[_ Hc]].
    + by apply (wf_additional _ Hwf c).
    + by apply Hc, (wf_chars _ Hwf).
  - rewrite (wf_special _ Hwf). apply NoDup_cons. split.
    + rewrite list_elem_of_singleton. apply (wf_distinct _ Hwf).
    + apply NoDup_singleton.
Qed.

(** [add_characters] keeps a vocabulary well formed. *)
Lemma add_characters_wf self new_chars :
  vocabulary_wf self → vocabulary_wf (add_characters self new_chars).
Proof.
  intros Hwf. split.
  - apply (wf_special _ Hwf).
  - apply (wf_distinct _ Hwf).
  - intros c Hc%add_characters_additional. simpl.
    destruct Hc as [Hc|[_ Hc]].
    + by apply (wf_additional _ Hwf).
    + intros Hsp. by apply Hc, (wf_chars _ Hwf).
  - intros c Hc. simpl in *. apply elem_of_app. by right.
Qed.

(** The constructor yields a well-formed vocabulary when the two
    reserved tokens differ. *)
Lemma init_wf start_token start_token_index end_token end_token_index
    max_length tokenizer :
  end_token ≠ start_token →
  vocabulary_wf (__init__ start_token start_token_index end_token
                   end_token_index max_length tokenizer).
Proof.
  intros Hne. split; simpl; [done|done| |done].
  intros c Hc. by apply elem_of_empty in Hc.
Qed.
End add_characters_facts.

(** C7.  For a well-formed vocabulary and any new characters,
    [add_characters] merges the new tokens into the additional ones and
    rebuilds the mapping: the non-reserved tokens, sorted and without
    repetition, take the indices [0 .. n-1] in sorted order, the end token
    takes [n] and the start token [n+1], and the mapping is a bijection
    between the tokens and the indices [0 .. n+1], with [reversed_vocab] as
    its inverse. *)
Theorem add_characters_mapping (self : SMILESVocabulary.t)
    (new_chars : list string) :
  vocabulary_wf self →
  let self' := SMILESVocabulary.add_characters self new_chars in
  let char_list :=
    merge_sort String.le (elements (SMILESVocabulary.additional_chars self')) in
  let n := Z.of_nat (length char_list) in
  (∀ c, c ∈ SMILESVocabulary.additional_chars self'
        ↔ c ∈ SMILESVocabulary.additional_chars self
          ∨ (c ∈ new_chars ∧ c ∉ SMILESVocabulary.chars self))
  ∧ SMILESVocabulary.chars self'
    = char_list
      ++ [SMILESVocabulary.end_token self; SMILESVocabulary.start_token self]
  ∧ Sorted String.le char_list
  ∧ NoDup char_list
  ∧ (∀ c, c ∈ char_list ↔ c ∈ SMILESVocabulary.additional_chars self')
  ∧ (∀ (i : nat) c,
       char_list !! i = Some c →
       Py.dict_get (SMILESVocabulary.vocab self') c = Some (Z.of_nat i))
  ∧ Py.dict_get (SMILESVocabulary.vocab self') (SMILESVocabulary.end_token self)
    = Some n
  ∧ Py.dict_get (SMILESVocabulary.vocab self') (SMILESVocabulary.start_token self)
    = Some (n + 1)
  ∧ (∀ c z,
       Py.dict_get (SMILESVocabulary.vocab self') c = Some z
       ↔ Py.dict_get (SMILESVocabulary.reversed_vocab self') z = Some c)
  ∧ (∀ c1 c2 z,
       Py.dict_get (SMILESVocabulary.vocab self') c1 = Some z →
       Py.dict_get (SMILESVocabulary.vocab self') c2 = Some z → c1 = c2)
  ∧ (∀ z, 0 ≤ z < n + 2
          ↔ ∃ c, Py.dict_get (SMILESVocabulary.vocab self') c = Some z)
  ∧ Z.of_nat (SMILESVocabulary.vocab_size self') = n + 2.
Proof.
  intros Hwf self' char_list n.
  pose proof (add_characters_NoDup self new_chars Hwf) as Hnd.
  destruct (sorted_elements (SMILESVocabulary.additional_chars self'))
    as (Hsorted & Hnd' & Hin).
  assert (Hchars : SMILESVocabulary.chars self'
                   = char_list ++ [SMILESVocabulary.end_token self;
                                   SMILESVocabulary.start_token self]).
  { simpl. by rewrite (wf_special _ Hwf). }
  assert (Hlen : Z.of_nat (length (SMILESVocabulary.chars self')) = n + 2).
  { rewrite Hchars, length_app. simpl. lia. }
  assert (Hget : ∀ (i : nat) c, SMILESVocabulary.chars self' !! i = Some c →
            Py.dict_get (SMILESVocabulary.vocab self') c = Some (Z.of_nat i)).
  { intros i c Hi. by apply (enumerated_get _ Hnd). }
  assert (Hinv : ∀ c z, Py.dict_get (SMILESVocabulary.vocab self') c = Some z →
            0 ≤ z < n + 2
            ∧ SMILESVocabulary.chars self' !! Z.to_nat z = Some c).
  { intros c z Hc. rewrite <-Hlen. by apply (enumerated_get_inv _ Hnd). }
  split; [apply add_characters_additional|].
  split; [done|]. split; [done|]. split; [done|]. split; [done|].
  split; [|split; [|split; [|split; [|split; [|split]]]]].
  - intros i c Hi. apply Hget. rewrite Hchars.
    rewrite lookup_app_l; [done|]. by eapply lookup_lt_Some.
  - unfold n. apply Hget. rewrite Hchars. by apply list_lookup_middle.
  - replace (n + 1) with (Z.of_nat (S (length char_list))) by lia.
    apply Hget. rewrite Hchars.
    rewrite lookup_app_r by lia.
    by replace (S (length char_list) - length char_list)%nat with 1%nat by lia.
  - intros c z. symmetry. apply (enumerated_reversed_get _ Hnd).
  - intros c1 c2 z [_ H1]%Hinv [_ H2]%Hinv. congruence.
  - intros z. split.
    + intros Hz.
      destruct (lookup_lt_is_Some_2 (SMILESVocabulary.chars self') (Z.to_nat z))
        as [c Hc]; [lia|].
      exists c. apply Hget in Hc. by rewrite Z2Nat.id in Hc by lia.
    + intros [c Hc]. by apply Hinv in Hc as [? _].
  - exact Hlen.
Qed.

Lemma add_characters_mapping_witness :
  SMILESVocabulary.vocab example_vocabulary
  = [("(", 0); (")", 1); ("1", 2); ("=", 3); ("C", 4); ("N", 5); ("O", 6);
     ("EOS", 7); ("GO", 8)]
  ∧ Py.dict_get (SMILESVocabulary.vocab example_vocabulary) "EOS" = Some 7
  ∧ Py.dict_get (SMILESVocabulary.vocab example_vocabulary) "GO" = Some 8.
Proof.
  split; [reflexivity|].
  pose proof (add_characters_mapping
    (SMILESVocabulary.__init__ "GO" 0 "EOS" 1 140 (Some char_tokenizer))
    ["("; ")"; "1"; "="; "C"; "N"; "O"]) as H.
  destruct H as (_ & _ & _ & _ & _ & _ & Hend & Hstart & _).
  - by apply init_wf.
  - split; [exact Hend | exact Hstart].
Defined.

(** ** Masked selection and assignment *)

Section tensor_facts.
Context {A : Type}.
Implicit Types (mask : grid bool) (g : grid A) (m : list bool)
  (row values : list A).

Lemma select_row_length m row :
  length row = length m →
  length (Tensor.select_row m row) = length (filter (λ b, b = true) m).
Proof.
  revert row. induction m as [|b m IH]; intros [|x row] Hlen; simpl in *;
    try done.
  destruct b.
  - rewrite filter_cons_True by done. simpl. f_equal. apply IH. lia.
  - rewrite filter_cons_False by done. apply IH. lia.
Qed.

Lemma masked_select_length mask g :
  Tensor.shape g = Tensor.shape mask →
  length (Tensor.masked_select mask g) = Tensor.count_true mask.
Proof.
  unfold Tensor.count_true, Tensor.shape.
  revert g. induction mask as [|m mask IH]; intros [|row g] Hsh; simpl in *;
    try done.
  injection Hsh as Hrow Hsh.
  rewrite filter_app, !length_app, IH by done.
  by rewrite select_row_length.
Qed.

Lemma assign_row_spec m row : ∀ values,
  (length (Tensor.select_row m row) ≤ length values)%nat →
  let k := length (Tensor.select_row m row) in
  let '(row', rest) := Tensor.assign_row m row values in
  Tensor.select_row m row' = take k values
  ∧ rest = drop k values
  ∧ Tensor.select_row (negb <$> m) row' = Tensor.select_row (negb <$> m) row
  ∧ length row' = length row.
Proof.
  revert row. induction m as [|b m IH]; intros [|x row] values Hlen;
    simpl in *; try done.
  destruct b; simpl in *.
  - destruct values as [|v values]; simpl in *; [lia|].
    specialize (IH row values ltac:(lia)).
    destruct (Tensor.assign_row m row values) as [row' rest].
    destruct IH as (H1 & H2 & H3 & H4). simpl in *.
    rewrite H1, H4. repeat split; done.
  - specialize (IH row values Hlen).
    destruct (Tensor.assign_row m row values) as [row' rest].
    destruct IH as (H1 & H2 & H3 & H4). simpl in *.
    rewrite H4. repeat split; try done. by f_equal.
Qed.

(** Writing through a mask: the selected cells hold the values, in
    row-major order; the other cells and the shape are as before. *)
Lemma masked_assign_spec mask g : ∀ values,
  length values = length (Tensor.masked_select mask g) →
  Tensor.masked_select mask (Tensor.masked_assign mask g values) = values
  ∧ Tensor.masked_select (negate mask) (Tensor.masked_assign mask g values)
    = Tensor.masked_select (negate mask) g
  ∧ Tensor.shape (Tensor.masked_assign mask g values) = Tensor.shape g.
Proof.
  revert g. induction mask as [|m mask IH]; intros [|row g] values Hlen;
    simpl in *; try (by destruct values).
  rewrite length_app in Hlen.
  pose proof (assign_row_spec m row values ltac:(lia)) as Hrow. simpl in Hrow.
  destruct (Tensor.assign_row m row values) as [row' rest].
  destruct Hrow as (Hsel & -> & Hneg & Hlen').
  specialize (IH g (drop (length (Tensor.select_row m row)) values)).
  destruct IH as (IH1 & IH2 & IH3); [rewrite length_drop; lia|].
  simpl. rewrite Hsel, IH1, Hneg, IH2, take_drop.
  unfold Tensor.shape in *. simpl. by rewrite Hlen', IH3.
Qed.

Lemma count_true_0 mask :
  Tensor.count_true mask = 0%nat ↔ ∀ m b, m ∈ mask → b ∈ m → b = false.
Proof.
  unfold Tensor.count_true. rewrite length_zero_iff_nil. split.
  - intros Hnil m b Hm Hb. destruct b; [|done].
    assert (true ∈ filter (λ b, b = true) (mjoin mask)) as Hin.
    { apply list_elem_of_filter. split; [done|].
      apply (proj2 (list_elem_of_join _ _)). by exists m. }
    rewrite Hnil in Hin. by apply elem_of_nil in Hin.
  - intros Hall. induction mask as [|m mask IH]; [done|].
    simpl. rewrite filter_app, IH, app_nil_r.
    + clear IH. assert (∀ b, b ∈ m → b = false) as Hm
        by (intros b; apply Hall; left).
      clear Hall. induction m as [|b m IH]; [done|].
      rewrite filter_cons_False; [apply IH; intros; apply Hm; by right|].
      rewrite (Hm b) by left. done.
    + intros m' b Hm'. apply Hall. by right.
Qed.
End tensor_facts.

(** ** The retry loop of [examples/ppo/utils.py] *)

Section retry_facts.
Context {R St : Type} (radd rmul : R → R → R).
Implicit Types (self : PPOUtils.SMILESReward R St) (s : St).

Lemma attempt_eq self smiles_list reward s :
  PPOUtils.attempt radd self smiles_list reward s
  = match PPOUtils.reward_function self smiles_list s with
    | (Ok scores, s') => (PPOUtils.add_reshaped radd reward scores, s', [])
    | (Raise e, s') => (Raise e, s', [])
    end.
Proof.
  unfold PPOUtils.attempt, bind, call, lift.
  destruct (PPOUtils.reward_function self smiles_list s) as [[scores|e] s'];
    done.
Qed.

Lemma attempt_no_warning self smiles_list reward s r s' w :
  PPOUtils.attempt radd self smiles_list reward s = (r, s', w) → w = [].
Proof.
  rewrite attempt_eq.
  destruct (PPOUtils.reward_function self smiles_list s) as [[scores|e] s''];
    congruence.
Qed.

Lemma attempts_S self smiles_list reward i remaining s :
  PPOUtils.attempts radd self smiles_list reward i (S remaining) s
  = match PPOUtils.attempt radd self smiles_list reward s with
    | (Raise e, s', w) =>
        if isinstance_RuntimeError e then
          if decide (i = 2%nat) then (Raise e, s', w)
          else
            let '(r, s'', w') :=
              PPOUtils.attempts radd self smiles_list reward (S i) remaining s' in
            (r, s'', w ++ TryAgain (i + 1) 3 :: w')
        else (Raise e, s', w)
    | other => other
    end.
Proof.
  simpl. unfold try_except_RuntimeError.
  destruct (PPOUtils.attempt radd self smiles_list reward s) as [[[x|e] s'] w];
    [done|].
  destruct (isinstance_RuntimeError e); [|done].
  unfold PPOUtils.max_attempts. simpl.
  destruct (decide (i = 2%nat)); simpl.
  - unfold raise. by rewrite app_nil_r.
  - unfold bind, warn.
    by destruct (PPOUtils.attempts _ _ _ _ _ _ _) as [[r s''] w'].
Qed.

(** When the loop is left normally, the reward is the old one plus the
    answer of one call of the scoring function. *)
Lemma attempts_Ok self smiles_list reward : ∀ remaining i s reward' s' w,
  (i + remaining = PPOUtils.max_attempts)%nat → remaining ≠ 0%nat →
  PPOUtils.attempts radd self smiles_list reward i remaining s
    = (Ok reward', s', w) →
  ∃ scores sa,
    PPOUtils.reward_function self smiles_list sa = (Ok scores, s')
    ∧ length scores = length reward
    ∧ reward' = zip_with radd reward scores.
Proof.
  induction remaining as [|remaining IH]; intros i s reward' s' w Hi Hrem;
    [done|].
  assert (∀ s1 r s'' w',
    i ≠ 2%nat →
    PPOUtils.attempts radd self smiles_list reward (S i) remaining s1
      = (r, s'', w') →
    r = Ok reward' → s'' = s' →
    ∃ scores sa,
      PPOUtils.reward_function self smiles_list sa = (Ok scores, s')
      ∧ length scores = length reward
      ∧ reward' = zip_with radd reward scores) as Hnext.
  { intros s1 r s'' w' Hne Hrest -> ->.
    eapply (IH (S i)); [|by intros ->; unfold PPOUtils.max_attempts in Hi; lia
                        |exact Hrest].
    lia. }
  rewrite attempts_S, attempt_eq.
  destruct (PPOUtils.reward_function self smiles_list s) as [[scores|e] s1] eqn:Hrf.
  - unfold PPOUtils.add_reshaped.
    destruct (decide (length scores = length reward)) as [Hlen|Hlen].
    + intros ?; simplify_eq. by exists scores, s.
    + simpl. destruct (decide (i = 2%nat)) as [->|Hne]; [done|].
      destruct (PPOUtils.attempts radd self smiles_list reward (S i) remaining s1)
        as [[r s''] w'] eqn:Hrest.
      intros ?; simplify_eq. by eapply Hnext.
  - destruct (isinstance_RuntimeError e); [|done].
    destruct (decide (i = 2%nat)) as [->|Hne]; [done|].
    destruct (PPOUtils.attempts radd self smiles_list reward (S i) remaining s1)
      as [[r s''] w'] eqn:Hrest.
    intros ?; simplify_eq. by eapply Hnext.
Qed.
End retry_facts.

(** ** [SMILESReward._call] *)

Section call_facts.
Context {R St : Type} (radd rmul : R → R → R).
Implicit Types (self : PPOUtils.SMILESReward R St) (s : St)
  (td : TensorDict R).
Local Arguments PPOUtils.attempts : simpl never.

Lemma zip_with_scaled self (reward scores : list R) :
  (λ r, rmul r (PPOUtils.reward_scale self)) <$> zip_with radd reward scores
  = zip_with (λ r x, rmul (radd r x) (PPOUtils.reward_scale self)) reward scores.
Proof.
  revert scores. induction reward as [|r reward IH]; intros [|x scores];
    simpl; try done.
  by rewrite <-IH.
Qed.

(** Without a terminal step [_call] returns at once. *)
Lemma call_no_terminal self td done s :
  bools td !! "done" = Some done →
  Tensor.count_true done = 0%nat →
  PPOUtils._call radd rmul self td s = (Ok td, s, []).
Proof.
  intros Hdone Hcount. unfold PPOUtils._call, bind, lift, get.
  rewrite Hdone. simpl. unfold sub_len. simpl.
  by rewrite decide_True.
Qed.

(** With a terminal step, and once everything has been read, the result
    of [_call] is the result of the retry loop, written back through the
    mask after scaling. *)
Lemma call_attempts self td done out_key rewards smiles_list s :
  PPOUtils.reads self td done out_key rewards smiles_list →
  Tensor.count_true done ≠ 0%nat →
  PPOUtils._call radd rmul self td s
  = match PPOUtils.attempts radd self smiles_list
            (Tensor.masked_select done rewards) 0 PPOUtils.max_attempts s with
    | (Ok reward, s', w) =>
        (Ok {| bools := bools td;
               ints := ints td;
               floats :=
                 <[out_key :=
                     Tensor.masked_assign done rewards
                       ((λ r, rmul r (PPOUtils.reward_scale self)) <$> reward)]>
                   (floats td) |}, s', w)
    | (Raise e, s', w) => (Raise e, s', w)
    end.
Proof.
  intros [Hdone Hout Hreward (in_key & smiles & Hin & Hsmiles & Hdecode)] Hcount.
  unfold PPOUtils._call, bind, lift, get, sub_get, sub_set_float, get.
  rewrite Hdone. simpl. unfold sub_len. simpl.
  rewrite decide_False by done.
  rewrite Hout, Hreward. simpl. rewrite Hin, Hsmiles. simpl.
  rewrite Hdecode.
  destruct (PPOUtils.attempts _ _ _ _ _ _ _) as [[[reward|e] s'] w]; [|done].
  by rewrite app_nil_r.
Qed.
End call_facts.

Section call_inversion.
Context {R St : Type} (radd rmul : R → R → R).
Implicit Types (self : PPOUtils.SMILESReward R St) (s : St)
  (td : TensorDict R).
Local Arguments PPOUtils.attempts : simpl never.

(** A normal return of [_call] on a batch with a terminal step: all the
    reads succeeded and the retry loop was left normally. *)
Lemma call_Ok_inv self td done s td' s' w :
  bools td !! "done" = Some done →
  Tensor.count_true done ≠ 0%nat →
  PPOUtils._call radd rmul self td s = (Ok td', s', w) →
  ∃ out_key rewards smiles_list reward,
    PPOUtils.reads self td done out_key rewards smiles_list
    ∧ PPOUtils.attempts radd self smiles_list
        (Tensor.masked_select done rewards) 0 PPOUtils.max_attempts s
      = (Ok reward, s', w)
    ∧ td' = {| bools := bools td;
               ints := ints td;
               floats :=
                 <[out_key :=
                     Tensor.masked_assign done rewards
                       ((λ r, rmul r (PPOUtils.reward_scale self)) <$> reward)]>
                   (floats td) |}.
Proof.
  intros Hdone Hcount Hcall.
  destruct (first_key (PPOUtils.out_keys self)) as [out_key|e] eqn:Hout; cycle 1.
  { revert Hcall. unfold PPOUtils._call, bind, lift, get. rewrite Hdone. simpl.
    unfold sub_len. simpl. rewrite decide_False by done. by rewrite Hout. }
  destruct (floats td !! out_key) as [rewards|] eqn:Hreward; cycle 1.
  { revert Hcall. unfold PPOUtils._call, bind, lift, get, sub_get, get.
    rewrite Hdone. simpl. unfold sub_len. simpl.
    rewrite decide_False by done. rewrite Hout. simpl. by rewrite Hreward. }
  destruct (first_key (PPOUtils.in_keys self)) as [in_key|e] eqn:Hin; cycle 1.
  { revert Hcall. unfold PPOUtils._call, bind, lift, get, sub_get, get.
    rewrite Hdone. simpl. unfold sub_len. simpl.
    rewrite decide_False by done. rewrite Hout. simpl. rewrite Hreward. simpl.
    by rewrite Hin. }
  destruct (ints td !! in_key) as [smiles|] eqn:Hsmiles; cycle 1.
  { revert Hcall. unfold PPOUtils._call, bind, lift, get, sub_get, get.
    rewrite Hdone. simpl. unfold sub_len. simpl.
    rewrite decide_False by done. rewrite Hout. simpl. rewrite Hreward. simpl.
    rewrite Hin. simpl. by rewrite Hsmiles. }
  destruct (result_mapM (λ smi, PPOUtils.vocabulary_decode self smi [-1])
              (Tensor.masked_select done smiles)) as [smiles_list|e] eqn:Hdecode;
    cycle 1.
  { revert Hcall. unfold PPOUtils._call, bind, lift, get, sub_get, get.
    rewrite Hdone. simpl. unfold sub_len. simpl.
    rewrite decide_False by done. rewrite Hout. simpl. rewrite Hreward. simpl.
    rewrite Hin. simpl. rewrite Hsmiles. simpl. by rewrite Hdecode. }
  assert (PPOUtils.reads self td done out_key rewards smiles_list) as Hreads.
  { split; try done. by exists in_key, smiles. }
  rewrite (call_attempts radd rmul _ _ _ _ _ _ _ Hreads Hcount) in Hcall.
  destruct (PPOUtils.attempts _ _ _ _ _ _ _) as [[[reward|e] s''] w'] eqn:Hatt;
    [|done].
  simplify_eq. by exists out_key, rewards, smiles_list, reward.
Qed.
End call_inversion.

(** C5.  On a batch in which no step has its terminal flag set, both
    reward transforms return the batch as it is: the scoring function is
    not called and nothing is written or warned about. *)
Theorem no_terminal_step_noop {R St : Type} (radd rmul : R → R → R)
    (ppo : PPOUtils.SMILESReward R St)
    (transform : RewardTransform.SMILESReward R St)
    (batch : Batch R) (flags : grid bool) (s : St) :
  (∀ m b, m ∈ flags → b ∈ m → b = false) →
  (bools (next batch) !! "done" = Some flags →
   PPOUtils.forward radd rmul ppo batch s = (Ok batch, s, []))
  ∧ (bools (next batch) !! "terminated" = Some flags →
     RewardTransform.forward radd transform batch s = (Ok batch, s, [])).
Proof.
  intros Hnone%count_true_0. split; intros Hflags.
  - unfold PPOUtils.forward, bind.
    rewrite (call_no_terminal radd rmul _ _ _ _ Hflags Hnone).
    by destruct batch.
  - unfold RewardTransform.forward, bind, lift, get. rewrite Hflags. simpl.
    unfold sub_len. simpl. by rewrite decide_True.
Qed.

Lemma no_terminal_step_noop_witness :
  let batch := example_batch [[false; false]; [false; false]] example_zeros in
  PPOUtils.forward Z.add Z.mul (example_ppo 0 None 1) batch 0%nat
    = (Ok batch, 0%nat, [])
  ∧ RewardTransform.forward Z.add (example_transform None) batch 0%nat
    = (Ok batch, 0%nat, []).
Proof.
  intros batch.
  destruct (no_terminal_step_noop Z.add Z.mul (example_ppo 0 None 1)
              (example_transform None) batch [[false; false]; [false; false]]
              0%nat) as [Hppo Htransform].
  - intros m b Hm Hb.
    repeat (apply elem_of_cons in Hm as [->|Hm];
            [repeat (apply elem_of_cons in Hb as [->|Hb]; [done|]);
             by apply elem_of_nil in Hb|]).
    by apply elem_of_nil in Hm.
  - split; [apply Hppo | apply Htransform]; reflexivity.
Defined.

#[local] Arguments PPOUtils.attempts : simpl never.

(** C3.  Once the batch has a terminal step and the texts are decoded, the
    scoring function is called at most three times.  A call that raises a
    [RuntimeError], or an instance of a class derived from it, is followed
    by a warning and another call, twice at most; when the third call
    raises such an exception too, that exception leaves [_call], after two
    warnings, and no batch is returned.  When a call answers (with one
    score per terminal step), the rewards are written and no further call
    is made.  An exception that is not an instance of [RuntimeError]
    leaves [_call] at once. *)
Theorem scoring_retried_three_times {R St : Type} (radd rmul : R → R → R)
    (self : PPOUtils.SMILESReward R St) (td : TensorDict R)
    (done : grid bool) (out_key : string) (rewards : grid R)
    (smiles_list : list string) (s0 : St) :
  PPOUtils.reads self td done out_key rewards smiles_list →
  Tensor.count_true done ≠ 0%nat →
  let score := PPOUtils.reward_function self smiles_list in
  let transient (e : exn) := isinstance_RuntimeError e = true in
  let one_per_step (scores : list R) :=
    length scores = length (Tensor.masked_select done rewards) in
  let rewarded := PPOUtils.rewarded radd rmul self td done out_key rewards in
  (∀ e1 e2 e3 s1 s2 s3,
     score s0 = (Raise e1, s1) → transient e1 →
     score s1 = (Raise e2, s2) → transient e2 →
     score s2 = (Raise e3, s3) → transient e3 →
     PPOUtils._call radd rmul self td s0
     = (Raise e3, s3, [TryAgain 1 3; TryAgain 2 3]))
  ∧ (∀ scores s1,
       score s0 = (Ok scores, s1) → one_per_step scores →
       PPOUtils._call radd rmul self td s0 = (Ok (rewarded scores), s1, []))
  ∧ (∀ e1 scores s1 s2,
       score s0 = (Raise e1, s1) → transient e1 →
       score s1 = (Ok scores, s2) → one_per_step scores →
       PPOUtils._call radd rmul self td s0
       = (Ok (rewarded scores), s2, [TryAgain 1 3]))
  ∧ (∀ e1 e2 scores s1 s2 s3,
       score s0 = (Raise e1, s1) → transient e1 →
       score s1 = (Raise e2, s2) → transient e2 →
       score s2 = (Ok scores, s3) → one_per_step scores →
       PPOUtils._call radd rmul self td s0
       = (Ok (rewarded scores), s3, [TryAgain 1 3; TryAgain 2 3]))
  ∧ (∀ e s1,
       score s0 = (Raise e, s1) → isinstance_RuntimeError e = false →
       PPOUtils._call radd rmul self td s0 = (Raise e, s1, [])).
Proof.
  intros Hreads Hcount score transient one_per_step rewarded.
  unfold score, transient, one_per_step, rewarded, PPOUtils.rewarded.
  repeat split.
  - intros e1 e2 e3 s1 s2 s3 H1 T1 H2 T2 H3 T3.
    rewrite (call_attempts radd rmul _ _ _ _ _ _ _ Hreads Hcount).
    unfold PPOUtils.max_attempts.
    rewrite attempts_S, attempt_eq, H1, T1. simpl.
    rewrite attempts_S, attempt_eq, H2, T2. simpl.
    rewrite attempts_S, attempt_eq, H3, T3. simpl. done.
  - intros scores s1 H1 Hlen.
    rewrite (call_attempts radd rmul _ _ _ _ _ _ _ Hreads Hcount).
    unfold PPOUtils.max_attempts.
    rewrite attempts_S, attempt_eq, H1. unfold PPOUtils.add_reshaped.
    rewrite decide_True by done. by rewrite zip_with_scaled.
  - intros e1 scores s1 s2 H1 T1 H2 Hlen.
    rewrite (call_attempts radd rmul _ _ _ _ _ _ _ Hreads Hcount).
    unfold PPOUtils.max_attempts.
    rewrite attempts_S, attempt_eq, H1, T1. simpl.
    rewrite attempts_S, attempt_eq, H2. unfold PPOUtils.add_reshaped.
    rewrite decide_True by done. by rewrite zip_with_scaled.
  - intros e1 e2 scores s1 s2 s3 H1 T1 H2 T2 H3 Hlen.
    rewrite (call_attempts radd rmul _ _ _ _ _ _ _ Hreads Hcount).
    unfold PPOUtils.max_attempts.
    rewrite attempts_S, attempt_eq, H1, T1. simpl.
    rewrite attempts_S, attempt_eq, H2, T2. simpl.
    rewrite attempts_S, attempt_eq, H3. unfold PPOUtils.add_reshaped.
    rewrite decide_True by done. by rewrite zip_with_scaled.
  - intros e s1 H1 He.
    rewrite (call_attempts radd rmul _ _ _ _ _ _ _ Hreads Hcount).
    unfold PPOUtils.max_attempts.
    by rewrite attempts_S, attempt_eq, H1, He.
Qed.

Lemma example_reads failures out_keys reward_scale out_key :
  first_key (default ["reward"] out_keys) = Ok out_key →
  out_key = "reward" ∨ out_key = "reward2" →
  PPOUtils.reads (example_ppo failures out_keys reward_scale)
    (example_next example_done example_zeros) example_done out_key
    example_zeros ["CCO"].
Proof.
  intros Hkey Hout. split; [done|done| |].
  - by destruct Hout as [-> | ->].
  - by exists "SMILES", example_smiles.
Qed.

Lemma example_raising_reads e :
  PPOUtils.reads (example_ppo_raising e)
    (example_next example_done example_zeros) example_done "reward"
    example_zeros ["CCO"].
Proof. split; [done..|]. by exists "SMILES", example_smiles. Qed.

Lemma scoring_retried_three_times_witness :
  PPOUtils._call Z.add Z.mul (example_ppo 3 None 1)
    (example_next example_done example_zeros) 0%nat
  = (Raise RuntimeError, 3%nat, [TryAgain 1 3; TryAgain 2 3])
  ∧ PPOUtils._call Z.add Z.mul (example_ppo 2 None 1)
      (example_next example_done example_zeros) 0%nat
    = (Ok (PPOUtils.rewarded Z.add Z.mul (example_ppo 2 None 1)
             (example_next example_done example_zeros) example_done "reward"
             example_zeros [1]),
       3%nat, [TryAgain 1 3; TryAgain 2 3])
  ∧ PPOUtils._call Z.add Z.mul
      (example_ppo_raising (RuntimeErrorSubclass "NotImplementedError"))
      (example_next example_done example_zeros) 0%nat
    = (Raise (RuntimeErrorSubclass "NotImplementedError"), 3%nat,
       [TryAgain 1 3; TryAgain 2 3])
  ∧ PPOUtils._call Z.add Z.mul (example_ppo_raising (OtherError "ValueError"))
      (example_next example_done example_zeros) 0%nat
    = (Raise (OtherError "ValueError"), 1%nat, []).
Proof.
  split; [|split; [|split]].
  - destruct (scoring_retried_three_times Z.add Z.mul (example_ppo 3 None 1)
                (example_next example_done example_zeros) example_done "reward"
                example_zeros ["CCO"] 0%nat) as (Hfail & _).
    + apply example_reads; [done|by left].
    + by vm_compute.
    + by apply (Hfail RuntimeError RuntimeError RuntimeError 1%nat 2%nat 3%nat).
  - destruct (scoring_retried_three_times Z.add Z.mul (example_ppo 2 None 1)
                (example_next example_done example_zeros) example_done "reward"
                example_zeros ["CCO"] 0%nat) as (_ & _ & _ & Hthird & _).
    + apply example_reads; [done|by left].
    + by vm_compute.
    + by apply (Hthird RuntimeError RuntimeError [1] 1%nat 2%nat 3%nat).
  - destruct (scoring_retried_three_times Z.add Z.mul
                (example_ppo_raising (RuntimeErrorSubclass "NotImplementedError"))
                (example_next example_done example_zeros) example_done "reward"
                example_zeros ["CCO"] 0%nat) as (Hfail & _).
    + apply example_raising_reads.
    + by vm_compute.
    + by apply (Hfail (RuntimeErrorSubclass "NotImplementedError")
                  (RuntimeErrorSubclass "NotImplementedError")
                  (RuntimeErrorSubclass "NotImplementedError")
                  1%nat 2%nat 3%nat).
  - destruct (scoring_retried_three_times Z.add Z.mul
                (example_ppo_raising (OtherError "ValueError"))
                (example_next example_done example_zeros) example_done "reward"
                example_zeros ["CCO"] 0%nat) as (_ & _ & _ & _ & Hother).
    + apply example_raising_reads.
    + by vm_compute.
    + by apply (Hother (OtherError "ValueError") 1%nat).
Defined.

(** C2.  When the reward transform returns normally on a batch with at
    least one terminal step, the scoring function has answered one call on
    the decoded texts of the terminal steps, in row-major order, and the
    reward of each terminal step is its previous value plus the score of
    its text, multiplied by the reward scale.  The rewards of the other
    steps, the shape, and every other entry of the batch are unchanged. *)
Theorem reward_added_then_scaled {R St : Type} (radd rmul : R → R → R)
    (self : PPOUtils.SMILESReward R St) (batch batch' : Batch R)
    (done : grid bool) (s s' : St) (w : list warning) :
  bools (next batch) !! "done" = Some done →
  Tensor.count_true done ≠ 0%nat →
  PPOUtils.forward radd rmul self batch s = (Ok batch', s', w) →
  ∃ out_key rewards rewards' smiles_list scores sa,
    PPOUtils.reads self (next batch) done out_key rewards smiles_list
    ∧ PPOUtils.reward_function self smiles_list sa = (Ok scores, s')
    ∧ length scores = length (Tensor.masked_select done rewards)
    ∧ floats (next batch') = <[out_key := rewards']> (floats (next batch))
    ∧ Tensor.masked_select done rewards'
      = zip_with (λ r x, rmul (radd r x) (PPOUtils.reward_scale self))
          (Tensor.masked_select done rewards) scores
    ∧ Tensor.masked_select (negate done) rewards'
      = Tensor.masked_select (negate done) rewards
    ∧ Tensor.shape rewards' = Tensor.shape rewards
    ∧ bools (next batch') = bools (next batch)
    ∧ ints (next batch') = ints (next batch)
    ∧ root batch' = root batch.
Proof.
  intros Hdone Hcount Hforward.
  unfold PPOUtils.forward, bind in Hforward.
  destruct (PPOUtils._call radd rmul self (next batch) s)
    as [[[td'|e] s1] w1] eqn:Hcall; [|done].
  unfold ret in Hforward. simplify_eq.
  apply (call_Ok_inv radd rmul _ _ done) in Hcall
    as (out_key & rewards & smiles_list & reward & Hreads & Hatt & ->);
    [|done..].
  apply attempts_Ok in Hatt as (scores & sa & Hscore & Hlen & ->);
    [|done..].
  destruct (masked_assign_spec done rewards
              ((λ r, rmul r (PPOUtils.reward_scale self))
                 <$> zip_with radd (Tensor.masked_select done rewards) scores))
    as (Hsel & Hneg & Hshape).
  { rewrite length_fmap, length_zip_with. lia. }
  eexists out_key, rewards, _, smiles_list, scores, sa.
  split; [done|]. split; [done|]. split; [done|]. split; [reflexivity|].
  split; [by rewrite Hsel, zip_with_scaled|]. done.
Qed.

Lemma reward_added_then_scaled_witness :
  ∃ batch' rewards',
    PPOUtils.forward Z.add Z.mul (example_ppo 0 None 2)
      (example_batch example_done example_prior) 0%nat
    = (Ok batch', 1%nat, [])
    ∧ floats (next batch') !! "reward" = Some rewards'
    ∧ Tensor.masked_select example_done rewards' = [(3 + 1) * 2].
Proof.
  destruct (reward_added_then_scaled Z.add Z.mul (example_ppo 0 None 2)
              (example_batch example_done example_prior)
              {| root := root (example_batch example_done example_prior);
                 next := PPOUtils.rewarded Z.add Z.mul (example_ppo 0 None 2)
                           (example_next example_done example_prior)
                           example_done "reward" example_prior [1] |}
              example_done 0%nat 1%nat [])
    as (out_key & rewards & rewards' & smiles_list & scores & sa
        & [_ Hout Hreward _] & Hscore & Hlen & Hfloats & Hsel & _).
  - reflexivity.
  - by vm_compute.
  - reflexivity.
  - injection Hout as <-. injection Hreward as <-.
    exists {| root := root (example_batch example_done example_prior);
              next := PPOUtils.rewarded Z.add Z.mul (example_ppo 0 None 2)
                        (example_next example_done example_prior)
                        example_done "reward" example_prior [1] |}, rewards'.
    split; [reflexivity|]. split.
    + rewrite Hfloats. apply lookup_insert_eq.
    + rewrite Hsel. unfold example_ppo, flaky_scoring in Hscore.
      simpl in Hscore. injection Hscore as <- _.
      destruct smiles_list as [|? [|? ?]]; vm_compute in Hlen; try done.
Defined.

(** ** The two reward transforms side by side *)

Section agreement.
Context {R St : Type} (radd rmul : R → R → R).

Lemma fmap_unit_scale (scale : R) (l : list R) :
  (∀ x, rmul x scale = x) → (λ r, rmul r scale) <$> l = l.
Proof.
  intros Hunit. induction l as [|x l IH]; [done|].
  by rewrite fmap_cons, Hunit, IH.
Qed.

(** With the output key [reward], a unit reward scale, the same flags
    under [done] and [terminated], and a first call of the scoring
    function that answers with one score per terminal step, the two
    transforms behave alike, failures included. *)
Lemma transforms_agree_on_reward_key
    (ppo : PPOUtils.SMILESReward R St)
    (transform : RewardTransform.SMILESReward R St)
    (batch : Batch R) (flags : grid bool) (s : St) :
  PPOUtils.vocabulary_decode ppo = RewardTransform.vocabulary_decode transform →
  PPOUtils.reward_function ppo = RewardTransform.reward_function transform →
  PPOUtils.in_keys ppo = RewardTransform.in_keys transform →
  first_key (PPOUtils.out_keys ppo) = Ok "reward" →
  (∀ x, rmul x (PPOUtils.reward_scale ppo) = x) →
  bools (next batch) !! "done" = Some flags →
  bools (next batch) !! "terminated" = Some flags →
  (∀ rewards in_key smiles smiles_list,
     floats (next batch) !! "reward" = Some rewards →
     first_key (PPOUtils.in_keys ppo) = Ok in_key →
     ints (next batch) !! in_key = Some smiles →
     result_mapM (λ smi, PPOUtils.vocabulary_decode ppo smi [-1])
       (Tensor.masked_select flags smiles) = Ok smiles_list →
     ∃ scores s1,
       PPOUtils.reward_function ppo smiles_list s = (Ok scores, s1)
       ∧ length scores = length (Tensor.masked_select flags rewards)) →
  PPOUtils.forward radd rmul ppo batch s
  = RewardTransform.forward radd transform batch s.
Proof.
  intros Hdec Hrf Hin Hout Hunit Hdone Hterm Hfirst.
  unfold PPOUtils.forward, PPOUtils._call, RewardTransform.forward.
  unfold bind, lift, get, sub_get, sub_set_float, get, ret.
  rewrite Hdone, Hterm. simpl. unfold sub_len. simpl.
  destruct (decide (Tensor.count_true flags = 0%nat)) as [Hz|Hnz].
  { by destruct batch. }
  rewrite Hout. simpl.
  destruct (floats (next batch) !! "reward") as [rewards|] eqn:Hreward;
    simpl; [|done].
  rewrite <-Hin.
  destruct (first_key (PPOUtils.in_keys ppo)) as [in_key|e] eqn:Hkey;
    simpl; [|done].
  destruct (ints (next batch) !! in_key) as [smiles|] eqn:Hsmiles;
    simpl; [|done].
  rewrite <-Hdec.
  destruct (result_mapM _ _) as [smiles_list|e] eqn:Hdecode; simpl; [|done].
  destruct (Hfirst rewards in_key smiles smiles_list eq_refl eq_refl
              Hsmiles Hdecode) as (scores & s1 & Hscore & Hlen).
  unfold PPOUtils.max_attempts. rewrite attempts_S, attempt_eq.
  unfold call. rewrite <-Hrf, Hscore.
  unfold PPOUtils.add_reshaped, RewardTransform.add_broadcast.
  rewrite !decide_True by done. simpl.
  by rewrite fmap_unit_scale.
Qed.
End agreement.

(** C10.  Both transforms are given the output key [reward2], as the test
    of the repository does; the batch has its [done] and [terminated]
    flags equal, the reward scale is one and the scoring function answers
    at its first call.  The transform of [examples/ppo/utils.py] adds the
    score to [reward2]; the one of [acegen/transforms/reward_transform.py]
    adds it to [reward], whatever its [out_keys] say. *)
Theorem transforms_differ_on_out_key :
  let batch := example_batch example_done example_zeros in
  let scored : grid Z := [[0; 0; 0; 0; 1]; [0; 0; 0; 0; 0]] in
  bools (next batch) !! "done" = bools (next batch) !! "terminated"
  ∧ ∃ after_ppo after_transform,
      PPOUtils.forward Z.add Z.mul (example_ppo 0 (Some ["reward2"]) 1) batch 0%nat
      = (Ok after_ppo, 1%nat, [])
      ∧ RewardTransform.forward Z.add (example_transform (Some ["reward2"]))
          batch 0%nat
        = (Ok after_transform, 1%nat, [])
      ∧ floats (next after_ppo) !! "reward2" = Some scored
      ∧ floats (next after_ppo) !! "reward" = Some example_zeros
      ∧ floats (next after_transform) !! "reward2" = Some example_zeros
      ∧ floats (next after_transform) !! "reward" = Some scored
      ∧ after_ppo ≠ after_transform.
Proof.
  intros batch scored. split; [reflexivity|].
  eexists _, _. split; [reflexivity|]. split; [reflexivity|].
  split; [reflexivity|]. split; [reflexivity|].
  split; [reflexivity|]. split; [reflexivity|].
  intros Heq. apply (f_equal (λ b, floats (next b) !! "reward")) in Heq.
  vm_compute in Heq. discriminate.
Qed.

(** ** The repetition penalty filter *)

Section repetition_facts.
Context {R : Type}.
Import RepetitionPenalty.
Implicit Types (self : PenaliseRepeatedSMILES R) (tr : Trajectory R)
  (batch : list (Trajectory R)).

Lemma forward_app self batch1 batch2 :
  forward self (batch1 ++ batch2)
  = let '(self1, out1) := forward self batch1 in
    let '(self2, out2) := forward self1 batch2 in
    (self2, out1 ++ out2).
Proof.
  revert self. induction batch1 as [|tr batch1 IH]; intros self; simpl.
  - by destruct (forward self batch2).
  - destruct (visit self tr) as [self' tr']. rewrite IH.
    destruct (forward self' batch1) as [self1 out1].
    by destruct (forward self1 batch2).
Qed.

Lemma forward_length self batch :
  length (forward self batch).2 = length batch.
Proof.
  revert self. induction batch as [|tr batch IH]; intros self; simpl; [done|].
  destruct (visit self tr) as [self' tr']. specialize (IH self').
  destruct (forward self' batch). simpl in *. by rewrite IH.
Qed.

(** The configuration is never changed and the archive only grows. *)
Lemma visit_keeps self tr :
  let self' := (visit self tr).1 in
  in_key self' = in_key self ∧ out_key self' = out_key self
  ∧ penalty self' = penalty self ∧ archive self ⊆ archive self'.
Proof.
  unfold visit. destruct (terminal tr); [|done].
  destruct (decide _); simpl; repeat split; set_solver.
Qed.

Lemma forward_keeps self batch :
  let self' := (forward self batch).1 in
  in_key self' = in_key self ∧ out_key self' = out_key self
  ∧ penalty self' = penalty self ∧ archive self ⊆ archive self'.
Proof.
  revert self. induction batch as [|tr batch IH]; intros self; simpl; [done|].
  pose proof (visit_keeps self tr) as Hv.
  destruct (visit self tr) as [self' tr']. specialize (IH self').
  destruct (forward self' batch) as [self'' out]. simpl in *.
  destruct Hv as (Hv1 & Hv2 & Hv3 & Hv4), IH as (IH1 & IH2 & IH3 & IH4).
  repeat split; [congruence..|set_solver].
Qed.

(** Trajectories with other texts do not put a text into the archive. *)
Lemma forward_absent self batch x :
  fingerprint x ∉ archive self →
  (∀ tr, tr ∈ batch → terminal tr = true → text tr ≠ x) →
  fingerprint x ∉ archive (forward self batch).1.
Proof.
  revert self. induction batch as [|tr batch IH]; intros self Hx Hother;
    simpl; [done|].
  destruct (visit self tr) as [self' tr'] eqn:Hvisit.
  specialize (IH self').
  destruct (forward self' batch) as [self'' out]. simpl in *.
  apply IH; [|intros; apply Hother; [by right|done]].
  unfold visit in Hvisit. destruct (terminal tr) eqn:Hterm; [|by simplify_eq].
  destruct (decide _); simplify_eq; simpl; [done|].
  unfold fingerprint in *. rewrite elem_of_union, elem_of_singleton.
  intros [Heq|?]; [|done]. by apply (Hother tr); [left| |].
Qed.
End repetition_facts.

(** C9.  A batch holds two terminal trajectories with the same decoded
    text, the text is not in the archive, and no terminal trajectory before
    the first of them has it.  Scanning in batch order, the filter gives
    the first one its reward as computed (the input entry is copied to the
    output entry, nothing is penalised) and puts the text into the archive;
    the second one gets the penalty as its output entry. *)
Theorem first_occurrence_kept_second_penalised {R : Type}
    (self : RepetitionPenalty.PenaliseRepeatedSMILES R)
    (before between after : list (RepetitionPenalty.Trajectory R))
    (first second : RepetitionPenalty.Trajectory R) :
  RepetitionPenalty.terminal first = true →
  RepetitionPenalty.terminal second = true →
  RepetitionPenalty.text second = RepetitionPenalty.text first →
  RepetitionPenalty.fingerprint (RepetitionPenalty.text first)
    ∉ RepetitionPenalty.archive self →
  (∀ tr, tr ∈ before → RepetitionPenalty.terminal tr = true →
         RepetitionPenalty.text tr ≠ RepetitionPenalty.text first) →
  let batch := before ++ first :: between ++ second :: after in
  let i := length before in
  let j := (length before + 1 + length between)%nat in
  let '(self', out) := RepetitionPenalty.forward self batch in
  RepetitionPenalty.fingerprint (RepetitionPenalty.text first)
    ∈ RepetitionPenalty.archive self'
  ∧ batch !! i = Some first ∧ batch !! j = Some second ∧ (i < j)%nat
  ∧ out !! i
    = Some {| RepetitionPenalty.terminal := true;
              RepetitionPenalty.text := RepetitionPenalty.text first;
              RepetitionPenalty.rewards :=
                match RepetitionPenalty.rewards first
                        !! RepetitionPenalty.in_key self with
                | Some r =>
                    <[RepetitionPenalty.out_key self := r]>
                      (RepetitionPenalty.rewards first)
                | None => RepetitionPenalty.rewards first
                end |}
  ∧ out !! j
    = Some {| RepetitionPenalty.terminal := true;
              RepetitionPenalty.text := RepetitionPenalty.text first;
              RepetitionPenalty.rewards :=
                <[RepetitionPenalty.out_key self := RepetitionPenalty.penalty self]>
                  (RepetitionPenalty.rewards second) |}.
Proof.
  intros Hfirst Hsecond Htext Hnew Hbefore batch i j. unfold batch, i, j.
  rewrite forward_app.
  pose proof (forward_absent self before _ Hnew Hbefore) as Habs.
  pose proof (forward_keeps self before) as Hk0.
  pose proof (forward_length self before) as Hl0.
  destruct (RepetitionPenalty.forward self before) as [self0 out0].
  simpl in Habs, Hk0, Hl0. destruct Hk0 as (Hin0 & Hout0 & Hpen0 & _).
  simpl. unfold RepetitionPenalty.visit at 1. rewrite Hfirst.
  rewrite decide_False by done.
  rewrite forward_app.
  match goal with
  | |- context [RepetitionPenalty.forward ?s between] =>
      pose proof (forward_keeps s between) as Hk1;
      pose proof (forward_length s between) as Hl1;
      destruct (RepetitionPenalty.forward s between) as [self1 out1]
  end.
  simpl in Hk1, Hl1. destruct Hk1 as (Hin1 & Hout1 & Hpen1 & Hsub1).
  simpl. unfold RepetitionPenalty.visit at 1. rewrite Hsecond, Htext.
  rewrite decide_True by set_solver.
  match goal with
  | |- context [RepetitionPenalty.forward ?s after] =>
      pose proof (forward_keeps s after) as Hk2;
      destruct (RepetitionPenalty.forward s after) as [self2 out2]
  end.
  simpl in Hk2. destruct Hk2 as (_ & _ & _ & Hsub2).
  split; [set_solver|].
  split; [by rewrite list_lookup_middle|].
  split.
  { rewrite lookup_app_r by lia.
    replace (length before + 1 + length between - length before)%nat
      with (S (length between)) by lia.
    simpl. by rewrite list_lookup_middle. }
  split; [lia|].
  split.
  - rewrite list_lookup_middle by done. by rewrite Hin0, Hout0.
  - rewrite lookup_app_r by lia.
    replace (length before + 1 + length between - length out0)%nat
      with (S (length out1)) by lia.
    simpl. rewrite list_lookup_middle by done.
    by rewrite Hout1, Hpen1, Hout0, Hpen0.
Qed.

Lemma first_occurrence_kept_second_penalised_witness :
  let out :=
    (RepetitionPenalty.forward example_filter
       [example_trajectory "CCO" 5; example_trajectory "CC" 3;
        example_trajectory "CCO" 7]).2 in
  out !! 0%nat = Some (example_trajectory "CCO" 5)
  ∧ out !! 2%nat = Some (example_trajectory "CCO" 0).
Proof.
  pose proof (first_occurrence_kept_second_penalised example_filter
                [] [example_trajectory "CC" 3] []
                (example_trajectory "CCO" 5) (example_trajectory "CCO" 7)
                eq_refl eq_refl eq_refl) as H.
  cbv zeta in H. cbn [app] in H.
  destruct (RepetitionPenalty.forward example_filter _) as [self' out].
  destruct H as (_ & _ & _ & _ & Hfirst & Hsecond).
  - apply not_elem_of_empty.
  - intros tr Htr. by apply elem_of_nil in Htr.
  - simpl. split; [exact Hfirst | exact Hsecond].
Defined.

Lemma small_indices_fit (vocab : list (string * Z)) :
  Forall (λ ci, Z.abs ci.2 ≤ 2 ^ 24) vocab →
  ∀ c z, Py.dict_get vocab c = Some z → ∃ x, Py.float32_of_Z z = Ok x.
Proof.
  intros Hall c z Hz%dict_get_Some_elem. rewrite Forall_forall in Hall.
  exists (Int z). apply float32_exact. by apply (Hall (c, z)).
Qed.

Lemma example_vocabulary_fits :
  ∀ c z, Py.dict_get (SMILESVocabulary.vocab example_vocabulary) c = Some z →
         ∃ x, Py.float32_of_Z z = Ok x.
Proof.
  apply small_indices_fit. apply (bool_decide_unpack _). by vm_compute.
Qed.

Lemma encode_missing_token_or_indices_witness :
  SMILESVocabulary.encode example_vocabulary "C1=X" = Raise KeyError
  ∧ ∃ indices,
      SMILESVocabulary.encode example_vocabulary "C1=C" = Ok indices
      ∧ length indices = 4%nat
      ∧ indices = [Int 4; Int 2; Int 3; Int 4].
Proof.
  split.
  - apply (encode_missing_token_or_indices example_vocabulary char_tokenizer
             "C1=X" eq_refl example_vocabulary_fits).
    exists "X". split; [|reflexivity].
    vm_compute. by repeat constructor.
  - destruct (encode_missing_token_or_indices example_vocabulary char_tokenizer
                "C1=C" eq_refl example_vocabulary_fits) as [_ Hknown].
    destruct Hknown as (indices & Henc & Hlen & _).
    + intros c Hc. vm_compute in Hc.
      repeat (apply elem_of_cons in Hc as [->|Hc]; [eexists; reflexivity|]).
      by apply elem_of_nil in Hc.
    + exists indices. split; [exact Henc|]. split; [exact Hlen|].
      assert (SMILESVocabulary.encode example_vocabulary "C1=C"
              = Ok [Int 4; Int 2; Int 3; Int 4]) as Hvalue by reflexivity.
      congruence.
Defined.

Lemma decode_matches_description_witness :
  SMILESVocabulary.decode halogen_vocabulary
    (Int <$> [4; 0; -1; 1; 2; 0; 3; 0; 77]) [Int (-1)]
  = Ok "CClBrC".
Proof.
  rewrite (decode_matches_description halogen_vocabulary
             (Int <$> [4; 0; -1; 1; 2; 0; 3; 0; 77]) [Int (-1)] 4 3);
    reflexivity.
Defined.
